(** * Automation-Backend: the task pipeline, embedded and verified

    A shallow embedding of the task-processing pipeline of the backend:
    the model-selection heuristic, the LLM client and the response validator
    of [services/llmServices.js], and the dispatcher, the orchestrator and the
    task endpoints of the server module.

    JavaScript strings are modelled by Rocq strings (the ASCII fragment:
    [toLowerCase] acts on the letters A-Z, white space is the ASCII white
    space).  The generative model, the automation engine and the process
    configuration are an environment the code reads; the task table, the
    calls made, the delays waited and the requests sent are a world the
    code changes.  The datastore fails only for an unknown identifier; a
    handler and the pipeline run it starts are taken one after the other.
    Console output is left out. *)

From Stdlib Require Import ZArith Lia List String Ascii Bool.
From stdpp Require Import base decidable option list gmap strings pretty.

Open Scope string_scope.
Open Scope Z_scope.

#[local] Arguments String.append : simpl nomatch.

(** ** Strings *)

(** The double-quote character, and a text between double quotes. *)
Definition dquote : string := String (ascii_of_nat 34) EmptyString.

Definition quoted (s : string) : string := dquote ++ s ++ dquote.

(** The line feed. *)
Definition LF : ascii := ascii_of_nat 10.

(** [String.prototype.toLowerCase], on the ASCII letters. *)
Definition lower_ascii (c : ascii) : ascii :=
  let n := nat_of_ascii c in
  if ((65 <=? n) && (n <=? 90))%nat then ascii_of_nat (n + 32) else c.

Fixpoint toLowerCase (s : string) : string :=
  match s with
  | EmptyString => EmptyString
  | String c s' => String (lower_ascii c) (toLowerCase s')
  end.

(** [s.startsWith(p)]. *)
Fixpoint startsWith (s p : string) {struct p} : bool :=
  match p, s with
  | EmptyString, _ => true
  | String _ _, EmptyString => false
  | String b p', String a s' => if Ascii.eqb a b then startsWith s' p' else false
  end.

(** [text.includes(pattern)]: [pattern] occurs in [text] as a substring. *)
Fixpoint includes (text pattern : string) : bool :=
  startsWith text pattern ||
  match text with
  | EmptyString => false
  | String _ text' => includes text' pattern
  end.

(** The substring relation the heuristic is specified with. *)
Definition Substring (p s : string) : Prop :=
  exists a b : string, s = a ++ p ++ b.

(** [String.prototype.trim], on the ASCII white space: tab, line feed,
    vertical tab, form feed, carriage return and space. *)
Definition isSpace (c : ascii) : bool :=
  let n := nat_of_ascii c in
  ((9 <=? n) && (n <=? 13) || (n =? 32))%nat.

Fixpoint trimStart (s : string) : string :=
  match s with
  | EmptyString => EmptyString
  | String c s' => if isSpace c then trimStart s' else s
  end.

Fixpoint trimEnd (s : string) : string :=
  match s with
  | EmptyString => EmptyString
  | String c s' =>
      match trimEnd s' with
      | EmptyString => if isSpace c then EmptyString else String c EmptyString
      | t => String c t
      end
  end.

Definition trim (s : string) : string := trimEnd (trimStart s).

(** [s.replace(/<fence>\n?/g, '')]: every occurrence of [fence], taken from
    the left and without overlap, is removed together with one line feed
    that follows it directly.  [skip] counts the characters of the current
    occurrence still to drop, [nl] tells that an occurrence has just ended. *)
Fixpoint removeFence (fence : string) (skip : nat) (nl : bool) (s : string) : string :=
  match s with
  | EmptyString => EmptyString
  | String c s' =>
      match skip with
      | S k => removeFence fence k nl s'
      | O =>
          if nl && Ascii.eqb c LF then removeFence fence 0 false s'
          else if startsWith s fence
               then removeFence fence (String.length fence - 1) true s'
               else String c (removeFence fence 0 false s')
      end
  end.

Definition backticks : string := "```".

(** [.replace(/```json\n?/g, '').replace(/```\n?/g, '')] *)
Definition stripFences (response : string) : string :=
  removeFence backticks 0 false (removeFence (backticks ++ "json") 0 false response).

(** The suffix of [s] that starts at the first [c]. *)
Fixpoint fromFirst (c : ascii) (s : string) : option string :=
  match s with
  | EmptyString => None
  | String a s' => if Ascii.eqb a c then Some s else fromFirst c s'
  end.

(** The prefix of [s] that ends at the last [c]. *)
Fixpoint upToLast (c : ascii) (s : string) : option string :=
  match s with
  | EmptyString => None
  | String a s' =>
      match upToLast c s' with
      | Some r => Some (String a r)
      | None => if Ascii.eqb a c then Some (String a EmptyString) else None
      end
  end.

(** [s.match(/\{[\s\S]*\}/)]: the match starts at the first opening brace
    and, the star being greedy, runs to the last closing brace after it. *)
Definition matchBraces (s : string) : option string :=
  match fromFirst "{" s with
  | Some (String open rest) => String open <$> upToLast "}" rest
  | _ => None
  end.

(** A character does not occur in a string. *)
Fixpoint lacks (c : ascii) (s : string) : Prop :=
  match s with
  | EmptyString => True
  | String a s' => a <> c /\ lacks c s'
  end.

(** The lines of a text, joined by line feeds. *)
Definition unlines (lines : list string) : string :=
  match lines with
  | [] => EmptyString
  | l :: ls => fold_left (fun acc x => acc ++ String LF x) ls l
  end.

(** ** JavaScript values and [JSON.parse] *)

(** A parsed JSON text.  A number [JNum m e] stands for [m * 10^e]; an
    object lists its properties, each key once. *)
#[warnings="-register-all"]
Inductive JValue : Type :=
| JNull
| JBool (b : bool)
| JNum (mantissa exponent : Z)
| JStr (s : string)
| JArr (items : list JValue)
| JObj (props : list (string * JValue)).

(** A JavaScript value read from a property: [None] is [undefined]. *)
Abbreviation JsVal := (option JValue).

(** Defining property [k] of an object under construction: a key already
    there keeps its place and takes the new value. *)
Fixpoint setProp (k : string) (v : JValue) (props : list (string * JValue))
  : list (string * JValue) :=
  match props with
  | [] => [(k, v)]
  | (k', v') :: props' =>
      if String.eqb k' k then (k, v) :: props' else (k', v') :: setProp k v props'
  end.

Fixpoint getProp (k : string) (props : list (string * JValue)) : JsVal :=
  match props with
  | [] => None
  | (k', v) :: props' => if String.eqb k' k then Some v else getProp k props'
  end.

Module JSON.

(** The outcome of a parsing function: the fuel ran out, the text is not
    JSON, or a value was read and [rest] remains. *)
Inductive Parse (A : Type) : Type :=
| OutOfFuel
| NoParse
| Parsed (a : A) (rest : string).

Arguments OutOfFuel {A}.
Arguments NoParse {A}.
Arguments Parsed {A} a rest.

(** JSON white space: space, tab, line feed, carriage return. *)
Definition isJsonSpace (c : ascii) : bool :=
  let n := nat_of_ascii c in
  ((n =? 32) || (n =? 9) || (n =? 10) || (n =? 13))%nat.

Fixpoint skipWs (s : string) : string :=
  match s with
  | EmptyString => EmptyString
  | String c s' => if isJsonSpace c then skipWs s' else s
  end.

Fixpoint dropChars (n : nat) (s : string) : string :=
  match n, s with
  | S n', String _ s' => dropChars n' s'
  | _, _ => s
  end.

Definition digitOf (c : ascii) : option Z :=
  let n := nat_of_ascii c in
  if ((48 <=? n) && (n <=? 57))%nat then Some (Z.of_nat n - 48) else None.

Definition hexOf (c : ascii) : option Z :=
  let n := nat_of_ascii c in
  if ((48 <=? n) && (n <=? 57))%nat then Some (Z.of_nat n - 48)
  else if ((65 <=? n) && (n <=? 70))%nat then Some (Z.of_nat n - 55)
  else if ((97 <=? n) && (n <=? 102))%nat then Some (Z.of_nat n - 87)
  else None.

Definition byte (n : Z) : ascii := ascii_of_N (Z.to_N n).

(** The characters a [\uXXXX] escape stands for: the code unit itself
    below 128, its UTF-8 bytes above. *)
Definition unitChars (u : Z) : string :=
  if u <? 128 then String (byte u) EmptyString
  else if u <? 2048 then
    String (byte (192 + u / 64)) (String (byte (128 + u mod 64)) EmptyString)
  else
    String (byte (224 + u / 4096))
      (String (byte (128 + (u / 64) mod 64))
         (String (byte (128 + u mod 64)) EmptyString)).

Definition hex4 (s : string) : option (Z * string) :=
  match s with
  | String a (String b (String c (String d rest))) =>
      match hexOf a, hexOf b, hexOf c, hexOf d with
      | Some x, Some y, Some z, Some t => Some (((x * 16 + y) * 16 + z) * 16 + t, rest)
      | _, _, _, _ => None
      end
  | _ => None
  end.

(** The character an escape letter stands for: the quote, the backslash
    and the slash stand for themselves, then come b, f, n, r and t. *)
Definition escapeOf (e : ascii) : option ascii :=
  let n := nat_of_ascii e in
  if ((n =? 34) || (n =? 92) || (n =? 47))%nat then Some e
  else if (n =? 98)%nat then Some (ascii_of_nat 8)
  else if (n =? 102)%nat then Some (ascii_of_nat 12)
  else if (n =? 110)%nat then Some (ascii_of_nat 10)
  else if (n =? 114)%nat then Some (ascii_of_nat 13)
  else if (n =? 116)%nat then Some (ascii_of_nat 9)
  else None.

(** A string literal, read from just after its opening quote. *)
Fixpoint parseString (s : string) : option (string * string) :=
  match s with
  | EmptyString => None
  | String c s' =>
      let n := nat_of_ascii c in
      if (n =? 34)%nat then Some (EmptyString, s')
      else if (n =? 92)%nat then
        match s' with
        | EmptyString => None
        | String e s'' =>
            if (nat_of_ascii e =? 117)%nat then
              match s'' with
              | String a (String b (String c' (String d rest))) =>
                  match hex4 s'', parseString rest with
                  | Some (u, _), Some (t, r) => Some (unitChars u ++ t, r)
                  | _, _ => None
                  end
              | _ => None
              end
            else
              match escapeOf e, parseString s'' with
              | Some x, Some (t, r) => Some (String x t, r)
              | _, _ => None
              end
        end
      else if (n <? 32)%nat then None
      else
        match parseString s' with
        | Some (t, r) => Some (String c t, r)
        | None => None
        end
  end.

(** The longest run of decimal digits at the head of [s]: their number,
    how many they are, and what follows. *)
Fixpoint digits (acc : Z) (count : Z) (s : string) : Z * Z * string :=
  match s with
  | EmptyString => (acc, count, s)
  | String c s' =>
      match digitOf c with
      | Some d => digits (acc * 10 + d) (count + 1) s'
      | None => (acc, count, s)
      end
  end.

(** A number literal: [-? int frac? exp?] of the JSON grammar. *)
Definition parseNumber (s : string) : option (JValue * string) :=
  let '(neg, s1) :=
    match s with
    | String c s' => if Ascii.eqb c "-" then (true, s') else (false, s)
    | EmptyString => (false, s)
    end in
  let '(int, nint, s2) := digits 0 0 s1 in
  if (nint =? 0) || ((1 <? nint) && startsWith s1 "0") then None
  else
    let frac :=
      match s2 with
      | String c s' =>
          if Ascii.eqb c "." then
            let '(m, nfrac, s3) := digits int 0 s' in
            if nfrac =? 0 then None else Some (m, nfrac, s3)
          else Some (int, 0, s2)
      | EmptyString => Some (int, 0, s2)
      end in
    match frac with
    | None => None
    | Some (m, nfrac, s3) =>
        let signed := if neg then - m else m in
        match s3 with
        | String c s' =>
            if Ascii.eqb c "e" || Ascii.eqb c "E" then
              let '(eneg, s4) :=
                match s' with
                | String c' s'' =>
                    if Ascii.eqb c' "-" then (true, s'')
                    else if Ascii.eqb c' "+" then (false, s'')
                    else (false, s')
                | EmptyString => (false, s')
                end in
              let '(e, ne, s5) := digits 0 0 s4 in
              if ne =? 0 then None
              else Some (JNum signed ((if eneg then - e else e) - nfrac), s5)
            else Some (JNum signed (- nfrac), s3)
        | EmptyString => Some (JNum signed (- nfrac), s3)
        end
    end.

Definition ofOption {A : Type} (o : option (A * string)) : Parse A :=
  match o with
  | Some (a, rest) => Parsed a rest
  | None => NoParse
  end.

(** A JSON value with the white space before it; the members of an object
    after its opening brace, and the items of an array after its opening
    bracket, when there is at least one. *)
Fixpoint parseValue (fuel : nat) (s : string) : Parse JValue :=
  match fuel with
  | O => OutOfFuel
  | S fuel' =>
      match skipWs s with
      | EmptyString => NoParse
      | String c s' as t =>
          if Ascii.eqb c "{" then
            match skipWs s' with
            | String c' r =>
                if Ascii.eqb c' "}" then Parsed (JObj []) r
                else parseMembers fuel' s' []
            | EmptyString => NoParse
            end
          else if Ascii.eqb c "[" then
            match skipWs s' with
            | String c' r =>
                if Ascii.eqb c' "]" then Parsed (JArr []) r
                else parseItems fuel' s' []
            | EmptyString => NoParse
            end
          else if (nat_of_ascii c =? 34)%nat then
            ofOption (prod_map JStr id <$> parseString s')
          else if startsWith t "true" then Parsed (JBool true) (dropChars 4 t)
          else if startsWith t "false" then Parsed (JBool false) (dropChars 5 t)
          else if startsWith t "null" then Parsed JNull (dropChars 4 t)
          else ofOption (parseNumber t)
      end
  end
with parseMembers (fuel : nat) (s : string) (acc : list (string * JValue))
  : Parse JValue :=
  match fuel with
  | O => OutOfFuel
  | S fuel' =>
      match skipWs s with
      | String q s1 =>
          if (nat_of_ascii q =? 34)%nat then
            match parseString s1 with
            | Some (k, s2) =>
                match skipWs s2 with
                | String colon s3 =>
                    if Ascii.eqb colon ":" then
                      match parseValue fuel' s3 with
                      | Parsed v s4 =>
                          match skipWs s4 with
                          | String sep s5 =>
                              if Ascii.eqb sep "," then parseMembers fuel' s5 (setProp k v acc)
                              else if Ascii.eqb sep "}" then Parsed (JObj (setProp k v acc)) s5
                              else NoParse
                          | EmptyString => NoParse
                          end
                      | OutOfFuel => OutOfFuel
                      | NoParse => NoParse
                      end
                    else NoParse
                | EmptyString => NoParse
                end
            | None => NoParse
            end
          else NoParse
      | EmptyString => NoParse
      end
  end
with parseItems (fuel : nat) (s : string) (acc : list JValue) : Parse JValue :=
  match fuel with
  | O => OutOfFuel
  | S fuel' =>
      match parseValue fuel' s with
      | Parsed v s1 =>
          match skipWs s1 with
          | String sep s2 =>
              if Ascii.eqb sep "," then parseItems fuel' s2 (acc ++ [v])
              else if Ascii.eqb sep "]" then Parsed (JArr (acc ++ [v])) s2
              else NoParse
          | EmptyString => NoParse
          end
      | OutOfFuel => OutOfFuel
      | NoParse => NoParse
      end
  end.

(** [JSON.parse(text)]: one value, white space around it allowed, nothing
    else after it; [None] stands for the SyntaxError it raises. *)
Definition parse (text : string) : option JValue :=
  match parseValue (2 * String.length text + 1) text with
  | Parsed v rest =>
      match skipWs rest with
      | EmptyString => Some v
      | String _ _ => None
      end
  | _ => None
  end.

End JSON.

Import JSON.

(** Truthiness of a JavaScript value.  A number is read as the nearest
    double: it is zero when its mantissa is, or when it lies at or below
    half the least positive double, [2^-1075]. *)
Definition numberTruthy (m e : Z) : bool :=
  if 0 <=? e then negb (m =? 0)
  else 10 ^ (- e) <? Z.abs m * 2 ^ 1075.

Definition truthy (v : JsVal) : bool :=
  match v with
  | None => false
  | Some JNull => false
  | Some (JBool b) => b
  | Some (JNum m e) => numberTruthy m e
  | Some (JStr s) => negb (String.eqb s EmptyString)
  | Some (JArr _) => true
  | Some (JObj _) => true
  end.

(** ** Errors, the world and the environment *)

(** The exceptions of the pipeline.  An [ExternalError] is one a client
    library raised (the generative-model client, the HTTP client); the two
    wrappers stand for [new Error(`Failed to call Gemini API: ${error.message}`)]
    and [new Error(`Invalid JSON response from Gemini: ${error.message}`)]. *)
Inductive JsError : Type :=
| ExternalError (status : option Z) (message : string)
| SyntaxError
| TypeError (property : string)
| ReferenceError (identifier : string)
| Error (message : string)
| PrismaError (code : string)
| FailedToCallGemini (cause : JsError)
| InvalidJSONResponse (cause : JsError).

(** [error.status] *)
Definition statusOf (error : JsError) : option Z :=
  match error with
  | ExternalError status _ => status
  | _ => None
  end.

Inductive Status : Type := pending | in_progress | completed | failed.

(** What [JSON.stringify] is given for the [result] column: the object is
    kept in place of its text.  An [ErrorPayload] holds the message and the
    stack of [error]; a [CreationFailed] is the text
    [`Task creation failed: ${error.message}`]. *)
Inductive Payload : Type :=
| CompletedPayload (gemini_response : JValue) (provider : string)
    (model : option string) (workflow_generated : bool)
    (n8n_workflow_id : JsVal) (timestamp : Z)
| DeclinedPayload (gemini_response : JValue) (provider : string)
    (model : option string) (reason : JValue) (timestamp : Z)
| ErrorPayload (error : JsError) (timestamp : Z)
| CreationFailed (error : JsError).

(** A row of the task table, with the columns the server writes. *)
Record Task : Type := {
  t_id : Z;
  t_email : string;
  t_task : string;
  t_status : Status;
  t_result : option Payload;
  t_type : option string;
  t_userId : option Z
}.

(** The two addresses of the automation engine:
    [http://localhost:5678/api/v1/workflows] and
    [`http://localhost:5678/api/v1/workflows/${workflowId}/execute`]. *)
Inductive Url : Type :=
| WorkflowsUrl
| ExecuteUrl (workflowId : JsVal).

(** An HTTP POST with its JSON body and its [X-Api-Key] header. *)
Record Request : Type := {
  url : Url;
  body : JValue;
  apiKey : string
}.

(** What a run changes or leaves behind: the task table with its
    auto-increment counter, the number of calls made to the model, the
    delays waited, the requests sent to the engine, and the clock. *)
Record World : Type := {
  tasks : gmap Z Task;
  next_id : Z;
  geminiCalls : nat;
  sleeps : list Z;
  requests : list Request;
  clock : Z
}.

(** What a run reads: the generative model (the outcome of its n-th call
    for a model name and a prompt), the [N8N_API_KEY] variable, and what
    the identifier [axios] is bound to in the server module ([None] when
    nothing binds it); the client answers a request, given those sent
    before, with the [data] of the response or with an error. *)
Record Env : Type := {
  gemini : nat -> string -> string -> JsError + string;
  N8N_API_KEY : option string;
  axios : option (list Request -> Request -> JsError + JsVal)
}.

(** Computations that read and change the world and may throw. *)
Definition M (A : Type) : Type := World -> (JsError + A) * World.

#[global] Instance M_ret : MRet M := fun A a w => (inr a, w).

#[global] Instance M_bind : MBind M := fun A B f m w =>
  match m w with
  | (inr a, w') => f a w'
  | (inl e, w') => (inl e, w')
  end.

#[global] Instance M_fmap : FMap M := fun A B f m w =>
  match m w with
  | (inr a, w') => (inr (f a), w')
  | (inl e, w') => (inl e, w')
  end.

Definition throw {A : Type} (e : JsError) : M A := fun w => (inl e, w).

(** [try { m } catch (error) { handler error }] *)
Definition try_catch {A : Type} (m : M A) (handler : JsError -> M A) : M A :=
  fun w =>
    match m w with
    | (inr a, w') => (inr a, w')
    | (inl e, w') => handler e w'
    end.

Definition lift {A : Type} (r : JsError + A) : M A := fun w => (r, w).

(** [new Date().toISOString()], as the reading of the clock. *)
Definition currentTime : M Z := fun w => (inr (clock w), w).

(** [await new Promise(resolve => setTimeout(resolve, delay))] *)
Definition afterSleep (delay : Z) (w : World) : World :=
  {| tasks := tasks w; next_id := next_id w; geminiCalls := geminiCalls w;
     sleeps := sleeps w ++ [delay]; requests := requests w;
     clock := clock w + delay |}.

Definition sleep (delay : Z) : M unit := fun w => (inr tt, afterSleep delay w).

(** [value.key], for the keys read here ([automatable], [workflow],
    [reason], [id]), which name no built-in property: reading from [null]
    throws, an object answers with its own property, any other value with
    [undefined]. *)
Definition member (value : JValue) (key : string) : JsError + JsVal :=
  match value with
  | JNull => inl (TypeError key)
  | JObj props => inr (getProp key props)
  | _ => inr None
  end.

(** [typeof v === 'boolean'] *)
Definition isBoolean (v : JsVal) : bool :=
  match v with
  | Some (JBool _) => true
  | _ => false
  end.

(** The world after one more call to the model. *)
Definition afterCall (w : World) : World :=
  {| tasks := tasks w; next_id := next_id w; geminiCalls := S (geminiCalls w);
     sleeps := sleeps w; requests := requests w; clock := clock w |}.

(** A class body installs its method definitions on the prototype in
    order: of two with one name, the later one is the method. *)
Fixpoint method {A : Type} (name : string) (body : list (string * A)) : option A :=
  match body with
  | [] => None
  | (n, f) :: body' =>
      match method name body' with
      | Some g => Some g
      | None => if String.eqb n name then Some f else None
      end
  end.

(** ** The LLM service: the class [LLMService] of [services/llmServices.js] *)

Module LLMService.

(** *** Model selection *)

Definition complexPatterns : list string :=
  [ "analyze"; "compare"; "calculate"; "process data"; "machine learning";
    "ai"; "complex logic"; "multiple conditions"; "workflow"; "integration";
    "transform"; "parse"; "extract and process" ].

Definition easyPatterns : list string :=
  [ "send email"; "post message"; "simple notification"; "basic alert";
    "reminder"; "daily message"; "weekly update"; "fetch data" ].

(** [patterns.filter(pattern => text.includes(pattern)).length] *)
Definition score (patterns : list string) (text : string) : nat :=
  length (List.filter (fun pattern => includes text pattern) patterns).

Definition analyzeComplexity (taskDescription : string) : string :=
  let text := toLowerCase taskDescription in
  let complexScore := score complexPatterns text in
  let easyScore := score easyPatterns text in
  if (2 <=? complexScore)%nat then "complex"
  else if (1 <=? easyScore)%nat && (complexScore =? 0)%nat then "easy"
  else "intermediate".

Definition selectModel (taskDescription : string) : string :=
  let complexity := analyzeComplexity taskDescription in
  if String.eqb complexity "easy" then "gemini-2.5-flash"
  else if String.eqb complexity "intermediate" then "gemini-2.5-flash"
  else if String.eqb complexity "complex" then "gemini-2.5-pro"
  else "gemini-2.5-flash".

(** *** The client *)

Definition generateSystemPrompt : string :=
  unlines [
    "You are an AI assistant that converts natural language task descriptions into executable n8n workflow JSON.";
    EmptyString;
    "Your task is to:";
    "1. Analyze if the task is automatable with n8n";
    "2. If automatable, generate a valid n8n workflow JSON";
    "3. If not automatable, return an error response";
    EmptyString;
    "IMPORTANT RULES:";
    "- Only return valid JSON (no markdown, no code blocks, just pure JSON)";
    "- Use realistic node configurations";
    "- Include proper node connections";
    "- Handle authentication requirements";
    "- Provide meaningful node names and descriptions";
    EmptyString;
    "RESPONSE FORMAT:";
    "For automatable tasks, return:";
    "{";
    "  " ++ quoted "automatable" ++ ": true,";
    "  " ++ quoted "workflow" ++ ": {";
    "    " ++ quoted "name" ++ ": " ++ quoted "Task Name" ++ ",";
    "    " ++ quoted "nodes" ++ ": [";
    "      {";
    "        " ++ quoted "id" ++ ": " ++ quoted "unique_id" ++ ",";
    "        " ++ quoted "name" ++ ": " ++ quoted "Node Name" ++ ",";
    "        " ++ quoted "type" ++ ": " ++ quoted "n8n-nodes-base.nodeName" ++ ",";
    "        " ++ quoted "typeVersion" ++ ": 1,";
    "        " ++ quoted "position" ++ ": [x, y],";
    "        " ++ quoted "parameters" ++ ": {";
    "          // node-specific parameters";
    "        }";
    "      }";
    "    ],";
    "    " ++ quoted "connections" ++ ": {";
    "      " ++ quoted "node_id" ++ ": {";
    "        " ++ quoted "main" ++ ": [";
    "          [";
    "            {";
    "              " ++ quoted "node" ++ ": " ++ quoted "target_node_id" ++ ",";
    "              " ++ quoted "type" ++ ": " ++ quoted "main" ++ ",";
    "              " ++ quoted "index" ++ ": 0";
    "            }";
    "          ]";
    "        ]";
    "      }";
    "    }";
    "  },";
    "  " ++ quoted "description" ++ ": " ++ quoted "Brief description of what this workflow does" ++ ",";
    "  " ++ quoted "requirements" ++ ": [" ++ quoted "List of required credentials/setup" ++ "]";
    "}";
    EmptyString;
    "For non-automatable tasks, return:";
    "{";
    "  " ++ quoted "automatable" ++ ": false,";
    "  " ++ quoted "reason" ++ ": " ++ quoted "Explanation of why this cannot be automated" ++ ",";
    "  " ++ quoted "suggestions" ++ ": [" ++ quoted "Alternative approaches or manual steps" ++ "]";
    "}";
    EmptyString;
    "AVAILABLE n8n NODES (most common):";
    "- HTTP Request: n8n-nodes-base.httpRequest";
    "- Email Send: n8n-nodes-base.emailSend";
    "- Schedule Trigger: n8n-nodes-base.scheduleTrigger";
    "- Manual Trigger: n8n-nodes-base.manualTrigger";
    "- Slack: n8n-nodes-base.slack";
    "- Discord: n8n-nodes-base.discord";
    "- Google Sheets: n8n-nodes-base.googleSheets";
    "- Webhook: n8n-nodes-base.webhook";
    "- Code: n8n-nodes-base.code";
    "- Set: n8n-nodes-base.set";
    "- IF: n8n-nodes-base.if";
    "- Switch: n8n-nodes-base.switch";
    "- Merge: n8n-nodes-base.merge";
    "- Split In Batches: n8n-nodes-base.splitInBatches";
    EmptyString;
    "IMPORTANT: Return ONLY the JSON response. No explanations, no markdown formatting, no code blocks." ].

(** The prompt of [callGemini]. *)
Definition promptFor (taskDescription : string) : string :=
  unlines [
    generateSystemPrompt;
    EmptyString;
    "Task to automate: " ++ quoted taskDescription;
    EmptyString;
    "Remember: Return ONLY valid JSON, no markdown formatting, no code blocks." ].

(** [getGenerativeModel({ model: modelName })], [generateContent(prompt)]
    and [response.text()]: one call to the model. *)
Definition generateText (E : Env) (modelName prompt : string) : M string :=
  fun w => (gemini E (geminiCalls w) modelName prompt, afterCall w).

(** The loop of the first declaration of [callGemini] (lines 13-39):
    [for (let attempt = 1; attempt <= retries; attempt++)], with
    [remaining] turns to go.  Falling out of the loop returns [undefined]. *)
Fixpoint attempts (E : Env) (taskDescription modelName : string)
    (retries : nat) (delay : Z) (remaining : nat) : M (option string) :=
  match remaining with
  | O => mret None
  | S remaining' =>
      let attempt := (retries - remaining')%nat in
      try_catch
        (Some <$> generateText E modelName (promptFor taskDescription))
        (fun error =>
           if decide (statusOf error = Some 503 /\ (attempt < retries)%nat)
           then sleep delay ≫= fun _ =>
                attempts E taskDescription modelName retries delay remaining'
           else throw (FailedToCallGemini error))
  end.

(** [async callGemini(taskDescription, modelName, retries = 3, delay = 30000)] *)
Definition callGemini_first (E : Env) (taskDescription modelName : string)
    (retries : nat) (delay : Z) : M (option string) :=
  attempts E taskDescription modelName retries delay retries.

(** The second declaration (lines 161-180):
    [async callGemini(taskDescription, modelName)]. *)
Definition callGemini_second (E : Env) (taskDescription modelName : string)
  : M (option string) :=
  try_catch
    (Some <$> generateText E modelName (promptFor taskDescription))
    (fun error => throw (FailedToCallGemini error)).

(** The two declarations of the class body, in the order of the source,
    as they answer a call with two arguments. *)
Definition declarations (E : Env)
  : list (string * (string -> string -> M (option string))) :=
  [ ("callGemini", fun taskDescription modelName =>
                     callGemini_first E taskDescription modelName 3 30000);
    ("callGemini", callGemini_second E) ].

(** [this.callGemini(taskDescription, modelName)] *)
Definition callGemini (E : Env) (taskDescription modelName : string)
  : M (option string) :=
  match method "callGemini" (declarations E) with
  | Some f => f taskDescription modelName
  | None => throw (TypeError "callGemini")
  end.

(** *** The validator *)

(** The text handed to [JSON.parse]. *)
Definition cleanResponse (response : string) : string :=
  let cleanedResponse := trim (stripFences response) in
  match matchBraces cleanedResponse with
  | Some jsonMatch => jsonMatch
  | None => cleanedResponse
  end.

(** The three errors of the validation. *)
Definition missingAutomatable : JsError :=
  Error "Invalid response format: missing automatable field".

Definition missingWorkflow : JsError :=
  Error "Invalid response format: missing workflow for automatable task".

Definition missingReason : JsError :=
  Error "Invalid response format: missing reason for non-automatable task".

(** The body of the [try] block of [parseAndValidateResponse]. *)
Definition validated (response : string) : JsError + JValue :=
  match JSON.parse (cleanResponse response) with
  | None => inl SyntaxError
  | Some parsed =>
      match member parsed "automatable" with
      | inl e => inl e
      | inr automatable =>
          if negb (isBoolean automatable)
          then inl missingAutomatable
          else
            match member parsed "workflow", member parsed "reason" with
            | inr workflow, inr reason =>
                if truthy automatable && negb (truthy workflow)
                then inl missingWorkflow
                else if negb (truthy automatable) && negb (truthy reason)
                then inl missingReason
                else inr parsed
            | inl e, _ => inl e
            | _, inl e => inl e
            end
      end
  end.

Definition parseAndValidateResponse (response : string) : JsError + JValue :=
  match validated response with
  | inr parsed => inr parsed
  | inl error => inl (InvalidJSONResponse error)
  end.

(** What [processTask] returns. *)
Record ProcessResult : Type := {
  success : bool;
  r_error : option JsError;
  r_provider : option string;
  r_model : option string;
  r_result : JValue
}.

(** The decision [processTask] answers with when a step has failed. *)
Definition fallbackDecision : JValue :=
  JObj [ ("automatable", JBool false);
         ("reason", JStr "Failed to process task with Gemini AI");
         ("suggestions",
          JArr [ JStr "Please try rephrasing your task";
                 JStr "Make your request more specific";
                 JStr "Contact support if the issue persists" ]) ].

Definition succeeded (modelName : string) (parsedResponse : JValue) : ProcessResult :=
  {| success := true; r_error := None; r_provider := Some "google";
     r_model := Some modelName; r_result := parsedResponse |}.

Definition notSucceeded (error : JsError) : ProcessResult :=
  {| success := false; r_error := Some error; r_provider := None;
     r_model := None; r_result := fallbackDecision |}.

Definition processTask (E : Env) (taskDescription : string) : M ProcessResult :=
  try_catch
    (let modelName := selectModel taskDescription in
     response ← callGemini E taskDescription modelName;
     parsedResponse ←
       match response with
       | Some text => lift (parseAndValidateResponse text)
       | None => throw (InvalidJSONResponse (TypeError "replace"))
       end;
     mret (succeeded modelName parsedResponse))
    (fun error => mret (notSucceeded error)).

End LLMService.

Import LLMService.

(** ** The server module: datastore, dispatcher, orchestrator, endpoints *)

Definition setTasks (f : gmap Z Task -> gmap Z Task) (bump : Z) (w : World) : World :=
  {| tasks := f (tasks w); next_id := next_id w + bump; geminiCalls := geminiCalls w;
     sleeps := sleeps w; requests := requests w; clock := clock w |}.

(** [prisma.task.create({ data })]: the row takes the next identifier. *)
Definition create (email task : string) (status : Status) (result : option Payload)
    (type : option string) (userId : option Z) : M Task :=
  fun w =>
    let newTask := {| t_id := next_id w; t_email := email; t_task := task;
                      t_status := status; t_result := result; t_type := type;
                      t_userId := userId |} in
    (inr newTask, setTasks <[next_id w := newTask]> 1 w).

(** [prisma.task.findUnique({ where: { id } })] *)
Definition findUnique (taskId : Z) : M (option Task) :=
  fun w => (inr (tasks w !! taskId), w).

(** [parseInt(req.params.id)], as the datastore client takes it: it
    refuses an identifier that is not a number. *)
Definition numbered (taskId : option Z) : M Z :=
  match taskId with
  | Some i => mret i
  | None => throw (PrismaError "PrismaClientValidationError")
  end.

(** [prisma.task.update({ where: { id }, data })]: fails with code P2025
    when no row has the identifier. *)
Definition update (taskId : Z) (data : Task -> Task) : M Task :=
  fun w =>
    match tasks w !! taskId with
    | Some t => (inr (data t), setTasks <[taskId := data t]> 0 w)
    | None => (inl (PrismaError "P2025"), w)
    end.

(** The [data] of the three kinds of update the server makes. *)
Definition setStatus (status : Status) (t : Task) : Task :=
  {| t_id := t_id t; t_email := t_email t; t_task := t_task t; t_status := status;
     t_result := t_result t; t_type := t_type t; t_userId := t_userId t |}.

Definition setStatusType (status : Status) (type : string) (t : Task) : Task :=
  {| t_id := t_id t; t_email := t_email t; t_task := t_task t; t_status := status;
     t_result := t_result t; t_type := Some type; t_userId := t_userId t |}.

Definition setOutcome (status : Status) (result : option Payload) (type : string)
    (t : Task) : Task :=
  {| t_id := t_id t; t_email := t_email t; t_task := t_task t; t_status := status;
     t_result := result; t_type := Some type; t_userId := t_userId t |}.

(** The own enumerable properties [{ ...value }] copies: those of an
    object, the indexed items of an array, the indexed characters of a
    string, none of any other value. *)
Fixpoint chars (s : string) : list JValue :=
  match s with
  | EmptyString => []
  | String c s' => JStr (String c EmptyString) :: chars s'
  end.

Definition indexed (items : list JValue) : list (string * JValue) :=
  imap (fun i v => (pretty i, v)) items.

Definition ownProps (value : JsVal) : list (string * JValue) :=
  match value with
  | Some (JObj props) => props
  | Some (JArr items) => indexed items
  | Some (JStr s) => indexed (chars s)
  | _ => []
  end.

(** The world after one more request to the engine. *)
Definition sent (r : Request) (w : World) : World :=
  {| tasks := tasks w; next_id := next_id w; geminiCalls := geminiCalls w;
     sleeps := sleeps w; requests := requests w ++ [r]; clock := clock w |}.

(** [axios.post(url, body, { headers })]: evaluating the identifier throws
    when nothing binds it; otherwise the request goes out and the client
    answers. *)
Definition post (E : Env) (r : Request) : M JsVal :=
  match axios E with
  | None => throw (ReferenceError "axios")
  | Some client => fun w => (client (requests w) r, sent r w)
  end.

(** The two requests of a dispatch: the workflow with [active: true] for
    the creation address, and an empty body for the execution address of
    the identifier. *)
Definition creation (workflow : JsVal) (n8nApiKey : string) : Request :=
  {| url := WorkflowsUrl;
     body := JObj (setProp "active" (JBool true) (ownProps workflow));
     apiKey := n8nApiKey |}.

Definition execution (workflowId : JsVal) (n8nApiKey : string) : Request :=
  {| url := ExecuteUrl workflowId; body := JObj []; apiKey := n8nApiKey |}.

(** [response.data.id] *)
Definition dataId (data : JsVal) : JsError + JsVal :=
  match data with
  | Some d => member d "id"
  | None => inl (TypeError "id")
  end.

(** What [executeN8nWorkflow] returns: [{ success: true, workflowId }]. *)
Record Dispatch : Type := {
  d_success : bool;
  workflowId : JsVal
}.

Definition executeN8nWorkflow (E : Env) (workflow : JsVal) (taskId : Z) : M Dispatch :=
  try_catch
    (match N8N_API_KEY E with
     | Some (String c k) =>
         let n8nApiKey := String c k in
         data ← post E (creation workflow n8nApiKey);
         workflowId ← lift (dataId data);
         _ ← post E (execution workflowId n8nApiKey);
         mret {| d_success := true; workflowId := workflowId |}
     | _ => throw (Error "N8N_API_KEY not configured in environment variables")
     end)
    (fun error => throw error).

(** [value || fallback] *)
Definition orDefault (value : JsVal) (fallback : JValue) : JValue :=
  match value with
  | Some v => if truthy value then v else fallback
  | None => fallback
  end.

Definition processTaskWithGemini (E : Env) (taskId : Z) (taskDescription email : string)
  : M unit :=
  try_catch
    (_ ← update taskId (setStatusType in_progress "gemini_processing");
     geminiResult ← processTask E taskDescription;
     automatable ← (if success geminiResult
                    then lift (member (r_result geminiResult) "automatable")
                    else mret None);
     if success geminiResult && truthy automatable then
       workflow ← lift (member (r_result geminiResult) "workflow");
       n8nResult ← executeN8nWorkflow E workflow taskId;
       timestamp ← currentTime;
       _ ← update taskId
             (setOutcome completed
                (Some (CompletedPayload (r_result geminiResult) "google"
                         (r_model geminiResult) true (workflowId n8nResult) timestamp))
                "automatable");
       mret tt
     else
       stated ← lift (member (r_result geminiResult) "reason");
       let reason := orDefault stated (JStr "Gemini AI processing failed") in
       timestamp ← currentTime;
       _ ← update taskId
             (setOutcome failed
                (Some (DeclinedPayload (r_result geminiResult) "google"
                         (r_model geminiResult) reason timestamp))
                "not_automatable");
       mret tt)
    (fun error =>
       try_catch
         (timestamp ← currentTime;
          _ ← update taskId
                (setOutcome failed (Some (ErrorPayload error timestamp))
                   "processing_error");
          mret tt)
         (fun updateError => mret tt)).

(** How a run ends: the task is written once more, with its outcome. *)
Definition finished (taskId : Z) (t1 : Task) (status : Status) (result : Payload)
    (type : string) (w : World) : (JsError + unit) * World :=
  (inr tt, setTasks <[taskId := setOutcome status (Some result) type t1]> 0 w).

(** Identifiers the import declarations of the server module bind
    (lines 1-8), and those its top-level declarations bind. *)
Definition serverImports : list string :=
  [ "express"; "PrismaClient"; "cors"; "bcrypt"; "jwt"; "cookieParser";
    "authMiddleware"; "LLMService" ].

Definition serverDeclarations : list string :=
  [ "app"; "prisma"; "llmService"; "authenticate"; "executeN8nWorkflow";
    "processTaskWithGemini" ].

Definition bound (identifier : string) : bool :=
  existsb (String.eqb identifier) (serverImports ++ serverDeclarations).

(** The environment of the server module as it is written, for a model, a
    configuration and an HTTP client library: an identifier stands for the
    library when the module binds it. *)
Definition serverEnv (model : nat -> string -> string -> JsError + string)
    (key : option string) (client : list Request -> Request -> JsError + JsVal) : Env :=
  {| gemini := model; N8N_API_KEY := key;
     axios := if bound "axios" then Some client else None |}.

(** The body of an HTTP response. *)
Inductive Body : Type :=
| ErrorBody (error : string) (details : option JsError)
| TaskBody (message : string) (task : Task)
| MessageBody (message : string).

Record Response : Type := {
  code : Z;
  payload : Body
}.

(** What a handler has done when it returns: the response sent, and the
    pipeline run it started without awaiting it, if any. *)
Record Handled : Type := {
  response : Response;
  spawned : option (Z * string * string)
}.

Definition respond (code : Z) (payload : Body) : M Handled :=
  mret {| response := {| code := code; payload := payload |}; spawned := None |}.

(** [POST /api/task]: [req.user.email], and [task] and [userId] of the
    body. *)
Record CreateRequest : Type := {
  c_email : option string;
  c_task : JsVal;
  c_userId : option Z
}.

(** The row [POST /api/task] creates. *)
Definition created (email task : string) (userId : option Z) (w : World) : Task :=
  {| t_id := next_id w; t_email := email; t_task := task; t_status := pending;
     t_result := None; t_type := Some "gemini_processing"; t_userId := userId |}.

(** No statement after the creation throws here, so the [catch] block is
    entered with [taskId] still [null] and only answers. *)
Definition postTask (req : CreateRequest) : M Handled :=
  try_catch
    (match c_email req with
     | Some (String c e) =>
         let email := String c e in
         if negb (truthy (c_task req))
         then respond 400 (ErrorBody "Task content is required" None)
         else
           match c_task req with
           | Some (JStr task) =>
               if String.eqb (trim task) EmptyString
               then respond 400 (ErrorBody "Task content is required" None)
               else if (String.length (trim task) <? 3)%nat
               then respond 400
                      (ErrorBody "Task content must be at least 3 characters long" None)
               else
                 newTask ← create email (trim task) pending None
                             (Some "gemini_processing") (c_userId req);
                 mret {| response :=
                           {| code := 201;
                              payload := TaskBody
                                "Task created successfully, processing with Gemini AI..."
                                newTask |};
                         spawned := Some (t_id newTask, trim task, email) |}
           | _ => throw (TypeError "trim")
           end
     | _ => respond 401 (ErrorBody "Unauthorized: User not authenticated" None)
     end)
    (fun error => respond 500 (ErrorBody "Failed to create task" (Some error))).

(** The status a request names, when it is one of the four. *)
Definition statusNamed (v : JsVal) : option Status :=
  match v with
  | Some (JStr s) =>
      if String.eqb s "pending" then Some pending
      else if String.eqb s "in-progress" then Some in_progress
      else if String.eqb s "completed" then Some completed
      else if String.eqb s "failed" then Some failed
      else None
  | _ => None
  end.

(** [PATCH /api/task/:id/status] and [POST /api/task/:id/retry]:
    [parseInt(req.params.id)], [req.user.email] and, for the former,
    [status] of the body. *)
Record TaskRequest : Type := {
  q_id : option Z;
  q_email : option string;
  q_status : JsVal
}.

Definition notFound (what : string) (error : JsError) : M Handled :=
  match error with
  | PrismaError "P2025" => respond 404 (ErrorBody "Task not found" None)
  | _ => respond 500 (ErrorBody what (Some error))
  end.

Definition patchStatus (req : TaskRequest) : M Handled :=
  try_catch
    (match statusNamed (q_status req) with
     | None => respond 400 (ErrorBody "Invalid status value" None)
     | Some status =>
         taskId ← numbered (q_id req);
         found ← findUnique taskId;
         match found with
         | None => respond 404 (ErrorBody "Task not found" None)
         | Some task =>
             if decide (Some (t_email task) = q_email req) then
               updatedTask ← update taskId (setStatus status);
               respond 200 (TaskBody "Task status updated successfully" updatedTask)
             else respond 403 (ErrorBody "Unauthorized to update this task" None)
         end
     end)
    (notFound "Failed to update task status").

Definition postRetry (req : TaskRequest) : M Handled :=
  try_catch
    (taskId ← numbered (q_id req);
     found ← findUnique taskId;
     match found with
     | None => respond 404 (ErrorBody "Task not found" None)
     | Some task =>
         if decide (Some (t_email task) = q_email req) then
           _ ← update taskId (setOutcome pending None "retry");
           mret {| response :=
                     {| code := 200;
                        payload := MessageBody "Task retry initiated with Gemini AI" |};
                   spawned := Some (taskId, t_task task, t_email task) |}
         else respond 403 (ErrorBody "Unauthorized to retry this task" None)
     end)
    (fun error => respond 500 (ErrorBody "Failed to retry task" (Some error))).

(** A request served to the end: the handler answers, then the pipeline
    run it started goes through. *)
Definition served (E : Env) (handler : M Handled) : M Response :=
  handled ← handler;
  match spawned handled with
  | Some (taskId, taskDescription, email) =>
      _ ← processTaskWithGemini E taskId taskDescription email;
      mret (response handled)
  | None => mret (response handled)
  end.

(** ** The words of the specification *)


(** [Matches text keywords n]: [n] of the [keywords] occur in [text] as
    substrings. *)
Inductive Matches (text : string) : list string -> nat -> Prop :=
| Matches_nil : Matches text [] 0
| Matches_hit k ks n :
    Substring k text -> Matches text ks n -> Matches text (k :: ks) (S n)
| Matches_miss k ks n :
    ~ Substring k text -> Matches text ks n -> Matches text (k :: ks) n.

(** The result of a task is non-null exactly when its status is completed
    or failed. *)
Definition terminal (s : Status) : bool :=
  match s with
  | completed | failed => true
  | pending | in_progress => false
  end.

Definition hasResult (t : Task) : bool :=
  match t_result t with
  | Some _ => true
  | None => false
  end.

Definition consistent (t : Task) : Prop := hasResult t = terminal (t_status t).


(** The property [key] of a parsed value, when it is an object that has
    one. *)
Definition fieldOf (parsed : JValue) (key : string) : JsVal :=
  match parsed with
  | JObj props => getProp key props
  | _ => None
  end.

(** The responses to refuse, by presence of the fields: the text is not
    JSON, or there is no boolean [automatable], or [automatable] is true
    and there is no [workflow], or it is false and there is no [reason]. *)
Definition refusedByPresence (response : string) : bool :=
  match JSON.parse (cleanResponse response) with
  | None => true
  | Some parsed =>
      match fieldOf parsed "automatable" with
      | Some (JBool true) => negb (bool_decide (is_Some (fieldOf parsed "workflow")))
      | Some (JBool false) => negb (bool_decide (is_Some (fieldOf parsed "reason")))
      | _ => true
      end
  end.

(** The same with [workflow] and [reason] absent or falsy. *)
Definition refused (response : string) : bool :=
  match JSON.parse (cleanResponse response) with
  | None => true
  | Some parsed =>
      match fieldOf parsed "automatable" with
      | Some (JBool true) => negb (truthy (fieldOf parsed "workflow"))
      | Some (JBool false) => negb (truthy (fieldOf parsed "reason"))
      | _ => true
      end
  end.

(** The world of a run once the task is in progress. *)
Definition inProgress (taskId : Z) (w : World) : World :=
  (update taskId (setStatusType in_progress "gemini_processing") w).2.

(** The three failures of a run, met from the world [w1] in which the
    task is in progress. *)
Definition llmClientFails (E : Env) (taskDescription : string) (w1 : World)
    (e : JsError) : Prop :=
  exists w2, callGemini E taskDescription (selectModel taskDescription) w1 = (inl e, w2).

Definition validatorFails (E : Env) (taskDescription : string) (w1 : World)
    (e : JsError) : Prop :=
  exists text w2,
    callGemini E taskDescription (selectModel taskDescription) w1 = (inr (Some text), w2)
    /\ parseAndValidateResponse text = inl e.

Definition dispatcherFails (E : Env) (taskId : Z) (taskDescription : string)
    (w1 : World) (e : JsError) : Prop :=
  exists text w2 parsed w3,
    callGemini E taskDescription (selectModel taskDescription) w1 = (inr (Some text), w2)
    /\ parseAndValidateResponse text = inr parsed
    /\ fieldOf parsed "automatable" = Some (JBool true)
    /\ executeN8nWorkflow E (fieldOf parsed "workflow") taskId w2 = (inl e, w3).

(** The task a run leaves. *)
Definition taskAfterRun (E : Env) (taskId : Z) (taskDescription email : string)
    (w : World) : option Task :=
  tasks (processTaskWithGemini E taskId taskDescription email w).2 !! taskId.

(** A failed task whose result is an error message, a trace and a
    timestamp. *)
Definition errorRecorded (t : option Task) : Prop :=
  exists t' e timestamp,
    t = Some t' /\ t_status t' = failed
    /\ t_result t' = Some (ErrorPayload e timestamp).

(** ** Sample inputs *)

Definition emptyWorld : World :=
  {| tasks := ∅; next_id := 1; geminiCalls := 0; sleeps := []; requests := [];
     clock := 1000 |}.

Definition sampleTask : Task :=
  {| t_id := 1; t_email := "ann@example.org"; t_task := "water the plants";
     t_status := pending; t_result := None; t_type := Some "gemini_processing";
     t_userId := None |}.

(** A world with one pending task. *)
Definition oneTask : World :=
  {| tasks := {[ 1 := sampleTask ]}; next_id := 2; geminiCalls := 0; sleeps := [];
     requests := []; clock := 1000 |}.

Definition automatableReply : string :=
  "{" ++ quoted "automatable" ++ ": true, " ++ quoted "workflow" ++ ": {"
      ++ quoted "name" ++ ": " ++ quoted "Plants" ++ ", "
      ++ quoted "nodes" ++ ": []}}".

Definition declinedReply : string :=
  "{" ++ quoted "automatable" ++ ": false, " ++ quoted "reason" ++ ": "
      ++ quoted "needs a person" ++ "}".

(** [{"automatable": true, "workflow": null}] and its like. *)
Definition nullWorkflowReply : string :=
  "{" ++ quoted "automatable" ++ ": true, " ++ quoted "workflow" ++ ": null}".

Definition falseWorkflowReply : string :=
  "{" ++ quoted "automatable" ++ ": true, " ++ quoted "workflow" ++ ": false}".

Definition zeroWorkflowReply : string :=
  "{" ++ quoted "automatable" ++ ": true, " ++ quoted "workflow" ++ ": 0}".

Definition emptyWorkflowReply : string :=
  "{" ++ quoted "automatable" ++ ": true, " ++ quoted "workflow" ++ ": "
      ++ quoted EmptyString ++ "}".

Definition emptyReasonReply : string :=
  "{" ++ quoted "automatable" ++ ": false, " ++ quoted "reason" ++ ": "
      ++ quoted EmptyString ++ "}".

(** A model that is overloaded on its first two calls and answers the
    third; one that is always overloaded; one that fails otherwise; one
    that answers at once. *)
Definition overloadedTwice (n : nat) (modelName prompt : string) : JsError + string :=
  if (n <? 2)%nat then inl (ExternalError (Some 503) "The model is overloaded")
  else inr automatableReply.

Definition alwaysOverloaded (n : nat) (modelName prompt : string) : JsError + string :=
  inl (ExternalError (Some 503) "The model is overloaded").

Definition badKey (n : nat) (modelName prompt : string) : JsError + string :=
  inl (ExternalError (Some 400) "API key not valid").

Definition answers (text : string) (n : nat) (modelName prompt : string)
  : JsError + string :=
  inr text.

(** An engine that registers every workflow under one identifier and runs
    it; one that registers and then refuses to run. *)
Definition engine (sent : list Request) (r : Request) : JsError + JsVal :=
  match url r with
  | WorkflowsUrl => inr (Some (JObj [("id", JStr "wf-1")]))
  | ExecuteUrl _ => inr (Some (JObj [("executionId", JNum 7 0)]))
  end.

Definition engineRefusingToRun (sent : list Request) (r : Request) : JsError + JsVal :=
  match url r with
  | WorkflowsUrl => inr (Some (JObj [("id", JStr "wf-1")]))
  | ExecuteUrl _ => inl (ExternalError (Some 500) "Request failed with status code 500")
  end.

(** An environment in which the client library is bound, and the engine
    refuses to run what it has registered. *)
Definition refusingEnv : Env :=
  {| gemini := answers automatableReply; N8N_API_KEY := Some "key";
     axios := Some engineRefusingToRun |}.

(** An environment in which the client library is bound and the engine
    runs what it registers. *)
Definition workingEnv : Env :=
  {| gemini := answers automatableReply; N8N_API_KEY := Some "key";
     axios := Some engine |}.

Definition sampleWorkflow : JsVal :=
  Some (JObj [("name", JStr "Plants"); ("nodes", JArr [])]).

(** ** Further parts of the service and of the server module *)

(** What [testConnection] returns: [{ gemini, model }] or
    [{ gemini, error }]; [Error "API key not configured"] stands for that
    text, any other error for its message. *)
Record ConnectionStatus : Type := {
  cs_gemini : bool;
  cs_model : option string;
  cs_error : option JsError
}.

(** [testConnection] of the class (lines 261-285), for the value
    [process.env.GEMINI_API_KEY] has when it is called. *)
Definition testConnection (E : Env) (GEMINI_API_KEY : option string)
  : M ConnectionStatus :=
  try_catch
    (match GEMINI_API_KEY with
     | Some (String _ _) =>
         _ ← generateText E "gemini-2.5-flash" ("Hello, respond with " ++ quoted "OK");
         mret {| cs_gemini := true; cs_model := Some "gemini-2.5-flash";
                 cs_error := None |}
     | _ =>
         mret {| cs_gemini := false; cs_model := None;
                 cs_error := Some (Error "API key not configured") |}
     end)
    (fun error =>
       mret {| cs_gemini := false; cs_model := None; cs_error := Some error |}).

(** [prisma.task.delete({ where: { id } })]: fails with code P2025 when no
    row has the identifier. *)
Definition deleteRow (taskId : Z) : M Task :=
  fun w =>
    match tasks w !! taskId with
    | Some t => (inr t, setTasks (delete taskId) 0 w)
    | None => (inl (PrismaError "P2025"), w)
    end.

(** What [GET /api/task/:id] and [DELETE /api/task/:id] answer: a task, a
    message, or an error with its status code.  The task is sent with its
    result read back from its text, which is the payload kept here. *)
Inductive Reply : Type :=
| TaskReply (task : Task)
| MessageReply (message : string)
| ErrorReply (code : Z) (error : string) (details : option JsError).

(** [GET /api/task/:id] (lines 419-454) *)
Definition getTask (req : TaskRequest) : M Reply :=
  try_catch
    (taskId ← numbered (q_id req);
     found ← findUnique taskId;
     match found with
     | None => mret (ErrorReply 404 "Task not found" None)
     | Some task =>
         if decide (Some (t_email task) = q_email req)
         then mret (TaskReply task)
         else mret (ErrorReply 403 "Unauthorized to view this task" None)
     end)
    (fun error => mret (ErrorReply 500 "Failed to fetch task" (Some error))).

(** [DELETE /api/task/:id] (lines 457-485) *)
Definition deleteTask (req : TaskRequest) : M Reply :=
  try_catch
    (taskId ← numbered (q_id req);
     found ← findUnique taskId;
     match found with
     | None => mret (ErrorReply 404 "Task not found" None)
     | Some task =>
         if decide (Some (t_email task) = q_email req) then
           _ ← deleteRow taskId;
           mret (MessageReply "Task deleted successfully")
         else mret (ErrorReply 403 "Unauthorized to delete this task" None)
     end)
    (fun error =>
       match error with
       | PrismaError "P2025" => mret (ErrorReply 404 "Task not found" None)
       | _ => mret (ErrorReply 500 "Failed to delete task" (Some error))
       end).

(** The task table keeps its rows below the counter: no row has an
    identifier the counter has yet to give. *)
Definition fresh (w : World) : Prop :=
  forall i, next_id w <= i -> tasks w !! i = None.

(** The attributes of a task no update writes. *)
Definition sameIdentity (t t' : Task) : Prop :=
  t_id t' = t_id t /\ t_email t' = t_email t /\ t_task t' = t_task t
  /\ t_userId t' = t_userId t.

(** A string in which [p] occurs nowhere. *)
Definition without (p s : string) : Prop := includes s p = false.

(** A reply between a [json] fence with its line feed and a closing fence
    on a line of its own. *)
Definition fenced (reply : string) : string :=
  backticks ++ "json" ++ String LF (reply ++ String LF backticks).

(* ================================================================== *)
(** * Properties *)

(** Unfolding the operations on computations. *)
Ltac unfold_M :=
  unfold try_catch, throw, lift, respond, mbind, M_bind, mret, M_ret, fmap, M_fmap.

(** ** Strings *)

Lemma startsWith_spec (s p : string) :
  startsWith s p = true <-> exists b, s = p ++ b.
Proof.
  revert s; induction p as [|c p IH]; intros s; simpl.
  - split; [intros _; now exists s | reflexivity].
  - destruct s as [|a s]; simpl.
    + split; [discriminate | intros [b Hb]; discriminate].
    + destruct (Ascii.eqb a c) eqn:E.
      * apply Ascii.eqb_eq in E; subst a. rewrite IH.
        split; intros [b Hb]; exists b; congruence.
      * apply Ascii.eqb_neq in E.
        split; [discriminate | intros [b Hb]; congruence].
Qed.

Lemma includes_spec (s p : string) :
  includes s p = true <-> Substring p s.
Proof.
  unfold Substring. induction s as [|c s IH]; simpl.
  - rewrite orb_false_r, startsWith_spec. split.
    + intros [b Hb]. now exists EmptyString, b.
    + intros [[|a0 a] [b Hb]]; simpl in Hb; [now exists b | discriminate].
  - rewrite orb_true_iff, startsWith_spec, IH. split.
    + intros [[b Hb] | (a & b & Hab)].
      * now exists EmptyString, b.
      * exists (String c a), b. simpl. now rewrite Hab.
    + intros [[|a0 a] [b Hb]]; simpl in Hb.
      * left. now exists b.
      * right. exists a, b. congruence.
Qed.

Lemma toLowerCase_app (a b : string) :
  toLowerCase (a ++ b) = toLowerCase a ++ toLowerCase b.
Proof. induction a as [|c a IH]; simpl; [reflexivity | now rewrite IH]. Qed.

Lemma append_assoc (a b c : string) : (a ++ b) ++ c = a ++ b ++ c.
Proof. induction a as [|x a IH]; simpl; [reflexivity | now rewrite IH]. Qed.

(** A keyword in lower case that occurs in a text occurs in the text in
    lower case. *)
Lemma Substring_toLowerCase (p s : string) :
  toLowerCase p = p -> Substring p s -> Substring p (toLowerCase s).
Proof.
  intros Hp (a & b & ->).
  exists (toLowerCase a), (toLowerCase b).
  now rewrite !toLowerCase_app, Hp.
Qed.

(** ** Model selection *)


Lemma Matches_functional (text : string) (patterns : list string) (n m : nat) :
  Matches text patterns n -> Matches text patterns m -> n = m.
Proof.
  intros Hn. revert m.
  induction Hn as [|k ks n Hk _ IH|k ks n Hk _ IH]; intros m Hm;
    inversion Hm; subst; try reflexivity; try contradiction;
    try (f_equal; now apply IH); now apply IH.
Qed.

Lemma score_none (text : string) (patterns : list string) :
  Forall (fun k => ~ Substring k text) patterns -> score patterns text = 0%nat.
Proof.
  unfold score. induction 1 as [|k ks Hk _ IH]; simpl; [reflexivity |].
  destruct (includes text k) eqn:E; [| exact IH].
  apply includes_spec in E. contradiction.
Qed.

Lemma score_hit (text : string) (patterns : list string) (k : string) :
  In k patterns -> includes text k = true -> (1 <= score patterns text)%nat.
Proof.
  unfold score. induction patterns as [|p ps IH]; simpl; [tauto |].
  intros [-> | Hin] Hk.
  - rewrite Hk. simpl. lia.
  - destruct (includes text p); simpl; [lia | now apply IH].
Qed.



(** The parts of C4 the code has: two complex keywords make the text
    complex, whatever else it holds. *)
Lemma analyze_and_compare_complex (taskDescription : string) :
  Substring "analyze" taskDescription ->
  Substring "compare" taskDescription ->
  analyzeComplexity taskDescription = "complex"
  /\ selectModel taskDescription = "gemini-2.5-pro".
Proof.
  intros Ha Hc.
  apply Substring_toLowerCase, includes_spec in Ha; [| reflexivity].
  apply Substring_toLowerCase, includes_spec in Hc; [| reflexivity].
  assert (H : analyzeComplexity taskDescription = "complex").
  { unfold analyzeComplexity, score, complexPatterns. simpl List.filter.
    rewrite Ha, Hc. reflexivity. }
  split; [exact H |]. unfold selectModel. now rewrite H.
Qed.

(** A text in which no keyword of either list occurs is intermediate. *)
Lemma no_keyword_intermediate (taskDescription : string) :
  Forall (fun k => ~ Substring k (toLowerCase taskDescription))
         (complexPatterns ++ easyPatterns) ->
  analyzeComplexity taskDescription = "intermediate"
  /\ selectModel taskDescription = "gemini-2.5-flash".
Proof.
  intros H. apply Forall_app in H as [Hc He].
  assert (Hi : analyzeComplexity taskDescription = "intermediate").
  { unfold analyzeComplexity.
    now rewrite (score_none _ _ Hc), (score_none _ _ He). }
  split; [exact Hi |]. unfold selectModel. now rewrite Hi.
Qed.

Lemma selectModel_deterministic (t1 t2 : string) :
  t1 = t2 -> selectModel t1 = selectModel t2.
Proof. now intros ->. Qed.

(** The keyword [ai] occurs in [email] and in [daily]: a text with the easy
    keyword [send email] always counts one complex keyword, and is never
    easy. *)
Lemma send_email_never_easy (taskDescription : string) :
  Substring "send email" (toLowerCase taskDescription) ->
  analyzeComplexity taskDescription <> "easy".
Proof.
  intros (a & b & Hab).
  assert (Hai : includes (toLowerCase taskDescription) "ai" = true).
  { apply includes_spec. exists (a ++ "send em"), ("l" ++ b).
    rewrite Hab, append_assoc. reflexivity. }
  assert (Hc : (1 <= score complexPatterns (toLowerCase taskDescription))%nat).
  { apply (score_hit _ _ "ai"); [unfold complexPatterns; simpl; tauto | exact Hai]. }
  unfold analyzeComplexity.
  destruct (2 <=? _)%nat; [discriminate |].
  destruct (score complexPatterns _); [lia |].
  simpl. rewrite andb_false_r. discriminate.
Qed.

(** C4: the text [send email] holds the complex keyword [ai], inside
    [email], next to its easy keyword: [analyzeComplexity] answers
    intermediate for it, not easy. *)
Theorem send_email_is_intermediate :
  includes (toLowerCase "send email") "ai" = true
  /\ score complexPatterns (toLowerCase "send email") = 1%nat
  /\ score easyPatterns (toLowerCase "send email") = 1%nat
  /\ analyzeComplexity "send email" = "intermediate"
  /\ analyzeComplexity "send email" <> "easy".
Proof. repeat split; try reflexivity. discriminate. Qed.



(** ** The span between braces *)

Lemma lacks_eqb (c a : ascii) : a <> c -> Ascii.eqb a c = false.
Proof. intros H. now apply Ascii.eqb_neq. Qed.

Lemma fromFirst_app (c : ascii) (a r : string) :
  lacks c a -> fromFirst c (a ++ String c r) = Some (String c r).
Proof.
  induction a as [|x a IH]; simpl.
  - intros _. now rewrite Ascii.eqb_refl.
  - intros [Hx Ha]. rewrite (lacks_eqb _ _ Hx). now apply IH.
Qed.

Lemma fromFirst_inv (c : ascii) (s t : string) :
  fromFirst c s = Some t ->
  exists a r, s = a ++ String c r /\ lacks c a /\ t = String c r.
Proof.
  induction s as [|x s IH]; simpl; [discriminate |].
  destruct (Ascii.eqb x c) eqn:E.
  - apply Ascii.eqb_eq in E. subst x. intros [= <-].
    now exists EmptyString, s.
  - apply Ascii.eqb_neq in E. intros H.
    destruct (IH H) as (a & r & -> & Ha & ->).
    exists (String x a), r. simpl. auto.
Qed.

Lemma upToLast_lacks (c : ascii) (b : string) :
  lacks c b -> upToLast c b = None.
Proof.
  induction b as [|x b IH]; simpl; [reflexivity |].
  intros [Hx Hb]. now rewrite (IH Hb), (lacks_eqb _ _ Hx).
Qed.

Lemma upToLast_app (c : ascii) (mid b : string) :
  lacks c b -> upToLast c (mid ++ String c b) = Some (mid ++ String c EmptyString).
Proof.
  intros Hb. induction mid as [|x mid IH]; simpl.
  - now rewrite (upToLast_lacks _ _ Hb), Ascii.eqb_refl.
  - now rewrite IH.
Qed.

Lemma upToLast_inv (c : ascii) (s r : string) :
  upToLast c s = Some r ->
  exists mid b, s = mid ++ String c b /\ lacks c b /\ r = mid ++ String c EmptyString.
Proof.
  revert r. induction s as [|x s IH]; simpl; [discriminate |]. intros r.
  destruct (upToLast c s) as [r'|] eqn:E.
  - intros [= <-]. destruct (IH _ eq_refl) as (mid & b & -> & Hb & ->).
    now exists (String x mid), b.
  - destruct (Ascii.eqb x c) eqn:Ex; [| discriminate].
    apply Ascii.eqb_eq in Ex. subst x. intros [= <-].
    exists EmptyString, s. repeat split.
    clear IH. induction s as [|y s IHs]; simpl in *; [exact I |].
    destruct (upToLast c s); [discriminate |].
    destruct (Ascii.eqb y c) eqn:Ey; [discriminate |].
    apply Ascii.eqb_neq in Ey. auto.
Qed.

(** [matchBraces] answers with the span from the first opening brace to
    the last closing brace. *)
Lemma matchBraces_spec (s m : string) :
  matchBraces s = Some m <->
  exists a mid b,
    s = a ++ "{" ++ mid ++ "}" ++ b /\ lacks "{" a /\ lacks "}" b
    /\ m = "{" ++ mid ++ "}".
Proof.
  unfold matchBraces. split.
  - destruct (fromFirst "{" s) as [t|] eqn:E; [| discriminate].
    apply fromFirst_inv in E as (a & r & -> & Ha & ->).
    destruct (upToLast "}" r) as [u|] eqn:Eu; simpl; [| discriminate].
    apply upToLast_inv in Eu as (mid & b & -> & Hb & ->).
    intros [= <-]. exists a, mid, b. repeat split; auto.
  - intros (a & mid & b & -> & Ha & Hb & ->).
    change (a ++ "{" ++ mid ++ "}" ++ b) with (a ++ String "{" (mid ++ String "}" b)).
    rewrite (fromFirst_app _ _ _ Ha), (upToLast_app _ _ _ Hb). reflexivity.
Qed.

Lemma append_nil_r (s : string) : s ++ EmptyString = s.
Proof. induction s as [|c s IH]; simpl; [reflexivity | now rewrite IH]. Qed.

(** ** Code fences *)

Lemma removeFence_skip (fence p s : string) (nl : bool) :
  removeFence fence (String.length p) nl (p ++ s) = removeFence fence 0 nl s.
Proof. induction p as [|c p IH]; simpl; [reflexivity | exact IH]. Qed.

Lemma removeFence_plain (f s r : string) :
  lacks "`" s ->
  removeFence (String "`" f) 0 false (s ++ r)
  = s ++ removeFence (String "`" f) 0 false r.
Proof.
  induction s as [|c s IH]; [reflexivity |].
  intros [Hc Hs]. simpl. rewrite (lacks_eqb _ _ Hc). now rewrite IH.
Qed.

Lemma startsWith_app (p s : string) : startsWith (p ++ s) p = true.
Proof. apply startsWith_spec. now exists s. Qed.

Lemma removeFence_fence (c : ascii) (f r : string) :
  removeFence (String c f) 0 false (String c f ++ r)
  = removeFence (String c f) 0 true r.
Proof.
  change (String c f ++ r) with (String c (f ++ r)).
  cbn [removeFence]. cbn [andb].
  change (String c (f ++ r)) with (String c f ++ r).
  rewrite startsWith_app.
  replace (String.length (String c f) - 1)%nat with (String.length f) by (simpl; lia).
  apply removeFence_skip.
Qed.

Lemma removeFence_newline (fence r : string) :
  removeFence fence 0 true (String LF r) = removeFence fence 0 false r.
Proof. reflexivity. Qed.

Lemma removeFence_no_newline (fence r : string) :
  startsWith r (String LF EmptyString) = false ->
  removeFence fence 0 true r = removeFence fence 0 false r.
Proof.
  destruct r as [|c r]; [reflexivity |]. simpl.
  destruct (Ascii.eqb c LF); [discriminate | reflexivity].
Qed.

(** A text without a backtick is left as it is; a text between a [json]
    fence with its line feed and a closing fence loses the two fences. *)
Lemma stripFences_plain (s : string) : lacks "`" s -> stripFences s = s.
Proof.
  intros H. unfold stripFences, backticks.
  assert (E : forall f, removeFence (String "`" f) 0 false s = s).
  { intros f. rewrite <- (append_nil_r s) at 1.
    rewrite (removeFence_plain _ _ _ H). simpl. apply append_nil_r. }
  change ("```" ++ "json") with (String "`" "``json").
  rewrite (E "``json"). exact (E "``").
Qed.

Lemma stripFences_fenced (body : string) :
  lacks "`" body ->
  stripFences (backticks ++ "json" ++ String LF (body ++ backticks)) = body.
Proof.
  intros H. unfold stripFences, backticks.
  change ("```" ++ "json" ++ String LF (body ++ "```"))
    with (String "`" "``json" ++ String LF (body ++ "```")).
  change ("```" ++ "json") with (String "`" "``json").
  rewrite removeFence_fence, removeFence_newline, (removeFence_plain _ _ _ H).
  change (removeFence "```json" 0 false "```") with "```".
  rewrite (removeFence_plain _ _ _ H).
  change (removeFence "```" 0 false "```") with EmptyString.
  apply append_nil_r.
Qed.

(** ** The JSON reader *)

Lemma skipWs_length (s : string) : (String.length (skipWs s) <= String.length s)%nat.
Proof.
  induction s as [|c s IH]; simpl; [lia |].
  destruct (isJsonSpace c); simpl; lia.
Qed.

Lemma dropChars_length (n : nat) (s : string) :
  (String.length (dropChars n s) <= String.length s)%nat.
Proof.
  revert s; induction n as [|n IH]; intros [|c s]; simpl; try lia.
  specialize (IH s). lia.
Qed.

Lemma parseString_length (s t r : string) :
  parseString s = Some (t, r) -> (String.length r <= String.length s)%nat.
Proof.
  remember (S (String.length s)) as n eqn:Hn.
  assert (Hlt : (String.length s < n)%nat) by lia. clear Hn.
  revert s t r Hlt. induction n as [|n IH]; intros s t r Hlt; [lia |].
  destruct s as [|c s]; simpl; [discriminate |]. simpl in Hlt.
  destruct (nat_of_ascii c =? 34)%nat.
  { intros [= <- <-]. lia. }
  destruct (nat_of_ascii c =? 92)%nat.
  - destruct s as [|e s]; [discriminate |].
    destruct (nat_of_ascii e =? 117)%nat.
    + destruct s as [|a [|b [|c' [|d rest]]]]; try discriminate.
      destruct (hex4 _) as [[u ?]|]; [| discriminate].
      destruct (parseString rest) as [[t' r']|] eqn:E; [| discriminate].
      intros [= <- <-]. apply IH in E; simpl in *; lia.
    + destruct (escapeOf e); [| discriminate].
      destruct (parseString s) as [[t' r']|] eqn:E; [| discriminate].
      intros [= <- <-]. apply IH in E; simpl in *; lia.
  - destruct (nat_of_ascii c <? 32)%nat; [discriminate |].
    destruct (parseString s) as [[t' r']|] eqn:E; [| discriminate].
    intros [= <- <-]. apply IH in E; simpl in *; lia.
Qed.

Lemma digits_length (acc count : Z) (s : string) :
  (String.length (digits acc count s).2 <= String.length s)%nat.
Proof.
  revert acc count; induction s as [|c s IH]; intros acc count; simpl; [lia |].
  destruct (digitOf c); simpl; [| lia].
  specialize (IH (acc * 10 + z) (count + 1)). lia.
Qed.

Lemma parseNumber_length (s r : string) (v : JValue) :
  parseNumber s = Some (v, r) -> (String.length r <= String.length s)%nat.
Proof.
  unfold parseNumber.
  set (p := match s with
            | String c s' => if Ascii.eqb c "-" then (true, s') else (false, s)
            | EmptyString => (false, s)
            end).
  assert (Hp : (String.length p.2 <= String.length s)%nat).
  { subst p. destruct s as [|c s]; simpl; [lia |].
    destruct (Ascii.eqb c "-"); simpl; lia. }
  destruct p as [neg s1]. simpl in Hp.
  pose proof (digits_length 0 0 s1) as H1.
  destruct (digits 0 0 s1) as [[int nint] s2]. simpl in H1.
  destruct ((nint =? 0) || _); [discriminate |].
  set (frac := match s2 with
               | String c s' => _
               | EmptyString => _
               end).
  assert (Hf : forall m n s3, frac = Some (m, n, s3) ->
                              (String.length s3 <= String.length s2)%nat).
  { subst frac. intros m n s3. destruct s2 as [|c s2]; [intros [= <- <- <-]; lia |].
    destruct (Ascii.eqb c ".").
    - pose proof (digits_length int 0 s2) as H2.
      destruct (digits int 0 s2) as [[m' n'] s3']. simpl in H2.
      destruct (n' =? 0); [discriminate |]. intros [= <- <- <-]. simpl. lia.
    - intros [= <- <- <-]. lia. }
  destruct frac as [[[m nfrac] s3]|]; [| discriminate].
  specialize (Hf _ _ _ eq_refl).
  destruct s3 as [|c s3]; [intros [= <- <-]; lia |].
  destruct (Ascii.eqb c "e" || Ascii.eqb c "E"); [| intros [= <- <-]; lia].
  set (q := match s3 with
            | String c' s'' => _
            | EmptyString => _
            end).
  assert (Hq : (String.length q.2 <= String.length s3)%nat).
  { subst q. destruct s3 as [|c' s3]; simpl; [lia |].
    destruct (Ascii.eqb c' "-"); simpl; [lia |].
    destruct (Ascii.eqb c' "+"); simpl; lia. }
  destruct q as [eneg s4]. simpl in Hq.
  pose proof (digits_length 0 0 s4) as H5.
  destruct (digits 0 0 s4) as [[e ne] s5]. simpl in H5.
  destruct (ne =? 0); [discriminate |]. intros [= <- <-]. simpl in *. lia.
Qed.

#[local] Arguments startsWith : simpl never.
#[local] Arguments dropChars : simpl never.
#[local] Arguments parseString : simpl never.
#[local] Arguments parseNumber : simpl never.

Lemma ofOption_rest {A : Type} (o : option (A * string)) (n : nat) :
  (forall a r, o = Some (a, r) -> (String.length r <= n)%nat) ->
  forall a r, ofOption o = Parsed a r -> (String.length r <= n)%nat.
Proof.
  intros H a r. destruct o as [[a' r']|]; simpl; [| discriminate].
  intros [= <- <-]. now apply (H a').
Qed.

Lemma parse_rest (fuel : nat) :
  (forall s v r, parseValue fuel s = Parsed v r ->
                 (String.length r <= String.length s)%nat)
  /\ (forall s acc v r, parseMembers fuel s acc = Parsed v r ->
                        (String.length r <= String.length s)%nat)
  /\ (forall s acc v r, parseItems fuel s acc = Parsed v r ->
                        (String.length r <= String.length s)%nat).
Proof.
  induction fuel as [|fuel (IHv & IHm & IHi)];
    [repeat split; intros; discriminate |].
  split; [| split].
  - intros s v r. simpl. pose proof (skipWs_length s) as Hs.
    destruct (skipWs s) as [|c s'] eqn:Es; [discriminate |]. simpl in Hs.
    destruct (Ascii.eqb c "{").
    { pose proof (skipWs_length s') as Hs'.
      destruct (skipWs s') as [|c' r']; [discriminate |]. simpl in Hs'.
      destruct (Ascii.eqb c' "}"); [intros [= <- <-]; lia |].
      intros H. apply IHm in H. lia. }
    destruct (Ascii.eqb c "[").
    { pose proof (skipWs_length s') as Hs'.
      destruct (skipWs s') as [|c' r']; [discriminate |]. simpl in Hs'.
      destruct (Ascii.eqb c' "]"); [intros [= <- <-]; lia |].
      intros H. apply IHi in H. lia. }
    destruct (nat_of_ascii c =? 34)%nat.
    { destruct (parseString s') as [[t r']|] eqn:E; simpl; [| discriminate].
      intros [= <- <-]. apply parseString_length in E. lia. }
    destruct (startsWith _ "true").
    { intros [= <- <-]. pose proof (dropChars_length 4 (String c s')) as Hd. simpl in Hd. lia. }
    destruct (startsWith _ "false").
    { intros [= <- <-]. pose proof (dropChars_length 5 (String c s')) as Hd. simpl in Hd. lia. }
    destruct (startsWith _ "null").
    { intros [= <- <-]. pose proof (dropChars_length 4 (String c s')) as Hd. simpl in Hd. lia. }
    destruct (parseNumber (String c s')) as [[v' r']|] eqn:E; simpl; [| discriminate].
    intros [= <- <-]. apply parseNumber_length in E. simpl in *. lia.
  - intros s acc v r. simpl. pose proof (skipWs_length s) as Hs.
    destruct (skipWs s) as [|q s1]; [discriminate |]. simpl in Hs.
    destruct (nat_of_ascii q =? 34)%nat; [| discriminate].
    destruct (parseString s1) as [[k s2]|] eqn:Ek; [| discriminate].
    apply parseString_length in Ek.
    pose proof (skipWs_length s2) as Hs2.
    destruct (skipWs s2) as [|colon s3]; [discriminate |]. simpl in Hs2.
    destruct (Ascii.eqb colon ":"); [| discriminate].
    destruct (parseValue fuel s3) as [| |v' s4] eqn:Ev; try discriminate.
    apply IHv in Ev.
    pose proof (skipWs_length s4) as Hs4.
    destruct (skipWs s4) as [|sep s5]; [discriminate |]. simpl in Hs4.
    destruct (Ascii.eqb sep ",").
    { intros H. apply IHm in H. lia. }
    destruct (Ascii.eqb sep "}"); [| discriminate].
    intros [= <- <-]. lia.
  - intros s acc v r. simpl.
    destruct (parseValue fuel s) as [| |v' s1] eqn:Ev; try discriminate.
    apply IHv in Ev.
    pose proof (skipWs_length s1) as Hs1.
    destruct (skipWs s1) as [|sep s2]; [discriminate |]. simpl in Hs1.
    destruct (Ascii.eqb sep ",").
    { intros H. apply IHi in H. lia. }
    destruct (Ascii.eqb sep "]"); [| discriminate].
    intros [= <- <-]. lia.
Qed.

Lemma parse_fuel (fuel : nat) :
  (forall s, (2 * String.length s + 1 <= fuel)%nat -> parseValue fuel s <> OutOfFuel)
  /\ (forall s acc, (2 * String.length s + 1 <= fuel)%nat ->
                    parseMembers fuel s acc <> OutOfFuel)
  /\ (forall s acc, (2 * String.length s + 2 <= fuel)%nat ->
                    parseItems fuel s acc <> OutOfFuel).
Proof.
  induction fuel as [|fuel (IHv & IHm & IHi)]; [repeat split; intros; lia |].
  destruct (parse_rest fuel) as (Rv & Rm & Ri).
  split; [| split].
  - intros s Hf. simpl. pose proof (skipWs_length s) as Hs.
    destruct (skipWs s) as [|c s'] eqn:Es; [discriminate |]. simpl in Hs.
    destruct (Ascii.eqb c "{").
    { pose proof (skipWs_length s') as Hs'.
      destruct (skipWs s') as [|c' r']; [discriminate |].
      destruct (Ascii.eqb c' "}"); [discriminate |]. apply IHm. lia. }
    destruct (Ascii.eqb c "[").
    { pose proof (skipWs_length s') as Hs'.
      destruct (skipWs s') as [|c' r']; [discriminate |].
      destruct (Ascii.eqb c' "]"); [discriminate |]. apply IHi. lia. }
    destruct (nat_of_ascii c =? 34)%nat.
    { destruct (parseString s') as [[t r']|]; discriminate. }
    destruct (startsWith _ "true"); [discriminate |].
    destruct (startsWith _ "false"); [discriminate |].
    destruct (startsWith _ "null"); [discriminate |].
    destruct (parseNumber _) as [[v' r']|]; discriminate.
  - intros s acc Hf. simpl. pose proof (skipWs_length s) as Hs.
    destruct (skipWs s) as [|q s1]; [discriminate |]. simpl in Hs.
    destruct (nat_of_ascii q =? 34)%nat; [| discriminate].
    destruct (parseString s1) as [[k s2]|] eqn:Ek; [| discriminate].
    apply parseString_length in Ek.
    pose proof (skipWs_length s2) as Hs2.
    destruct (skipWs s2) as [|colon s3]; [discriminate |]. simpl in Hs2.
    destruct (Ascii.eqb colon ":"); [| discriminate].
    assert (Hv : parseValue fuel s3 <> OutOfFuel) by (apply IHv; lia).
    destruct (parseValue fuel s3) as [| |v' s4] eqn:Ev; [congruence | discriminate |].
    apply Rv in Ev.
    pose proof (skipWs_length s4) as Hs4.
    destruct (skipWs s4) as [|sep s5]; [discriminate |]. simpl in Hs4.
    destruct (Ascii.eqb sep ","); [apply IHm; lia |].
    destruct (Ascii.eqb sep "}"); discriminate.
  - intros s acc Hf. simpl.
    assert (Hv : parseValue fuel s <> OutOfFuel) by (apply IHv; lia).
    destruct (parseValue fuel s) as [| |v' s1] eqn:Ev; [congruence | discriminate |].
    apply Rv in Ev.
    pose proof (skipWs_length s1) as Hs1.
    destruct (skipWs s1) as [|sep s2]; [discriminate |]. simpl in Hs1.
    destruct (Ascii.eqb sep ","); [apply IHi; lia |].
    destruct (Ascii.eqb sep "]"); discriminate.
Qed.

(** The fuel [JSON.parse] gives is enough: a text is refused for its
    syntax only. *)
Lemma JSON_parse_fuel (text : string) :
  parseValue (2 * String.length text + 1) text <> OutOfFuel.
Proof. apply parse_fuel. lia. Qed.

(** ** The validator *)

(** [parseAndValidateResponse], case by case on what [JSON.parse] read. *)
Lemma parseAndValidateResponse_eq (response : string) :
  parseAndValidateResponse response =
  match JSON.parse (cleanResponse response) with
  | None => inl (InvalidJSONResponse SyntaxError)
  | Some JNull => inl (InvalidJSONResponse (TypeError "automatable"))
  | Some parsed =>
      match fieldOf parsed "automatable" with
      | Some (JBool true) =>
          if truthy (fieldOf parsed "workflow") then inr parsed
          else inl (InvalidJSONResponse missingWorkflow)
      | Some (JBool false) =>
          if truthy (fieldOf parsed "reason") then inr parsed
          else inl (InvalidJSONResponse missingReason)
      | _ => inl (InvalidJSONResponse missingAutomatable)
      end
  end.
Proof.
  unfold parseAndValidateResponse, validated.
  destruct (JSON.parse (cleanResponse response)) as [parsed|]; [| reflexivity].
  destruct parsed as [|b|m e|s|items|props]; try reflexivity.
  simpl. destruct (getProp "automatable" props) as [[|[|]|m e|s|items|props']|];
    simpl; try reflexivity.
  - destruct (truthy (getProp "workflow" props)); reflexivity.
  - destruct (truthy (getProp "reason" props)); reflexivity.
Qed.

Lemma truthy_present (v : JsVal) : truthy v = true -> is_Some v.
Proof. destruct v; [eauto | discriminate]. Qed.

(** C6, as amended: the validator parses the span between the first
    opening and the last closing brace of the response without its code
    fences (a text without backticks is kept, a text between a [json]
    fence and a closing fence loses both), and refuses the response,
    always with the one error for an invalid response, exactly when the text is not JSON, or it has no
    boolean [automatable], or [automatable] is true and [workflow] is absent
    or falsy, or [automatable] is false and [reason] is absent or falsy;
    otherwise it returns what was parsed. *)
Theorem parseAndValidateResponse_refuses (response : string) :
  (refused response = true ->
   exists cause, parseAndValidateResponse response = inl (InvalidJSONResponse cause))
  /\ (refused response = false ->
      exists parsed, JSON.parse (cleanResponse response) = Some parsed
                     /\ parseAndValidateResponse response = inr parsed)
  /\ (forall a mid b,
         trim (stripFences response) = a ++ "{" ++ mid ++ "}" ++ b ->
         lacks "{" a -> lacks "}" b ->
         cleanResponse response = "{" ++ mid ++ "}")
  /\ (matchBraces (trim (stripFences response)) = None ->
      cleanResponse response = trim (stripFences response))
  /\ (lacks "`" response -> stripFences response = response)
  /\ (forall body,
         lacks "`" body ->
         response = backticks ++ "json" ++ String LF (body ++ backticks) ->
         stripFences response = body).
Proof.
  rewrite parseAndValidateResponse_eq. unfold refused.
  split; [| split; [| split; [| split; [| split]]]];
    [ | | | | apply stripFences_plain
      | intros body Hb ->; now apply stripFences_fenced ].
  - destruct (JSON.parse (cleanResponse response)) as [parsed|]; [| eauto].
    destruct parsed as [|b|m e|s|items|props]; simpl; eauto.
    destruct (getProp "automatable" props) as [[|[|]|m e|s|items|props']|];
      simpl; eauto.
    + destruct (truthy (getProp "workflow" props)); [discriminate | eauto].
    + destruct (truthy (getProp "reason" props)); [discriminate | eauto].
  - destruct (JSON.parse (cleanResponse response)) as [parsed|]; [| discriminate].
    destruct parsed as [|b|m e|s|items|props]; simpl; try discriminate.
    destruct (getProp "automatable" props) as [[|[|]|m e|s|items|props']|];
      simpl; try discriminate.
    + destruct (truthy (getProp "workflow" props)); [eauto | discriminate].
    + destruct (truthy (getProp "reason" props)); [eauto | discriminate].
  - intros a mid b H Ha Hb. unfold cleanResponse.
    assert (E : matchBraces (trim (stripFences response)) = Some ("{" ++ mid ++ "}")).
    { apply matchBraces_spec. exists a, mid, b. auto. }
    now rewrite E.
  - intros E. unfold cleanResponse. now rewrite E.
Qed.

Lemma parseAndValidateResponse_refuses_witness :
  (exists cause,
      parseAndValidateResponse nullWorkflowReply = inl (InvalidJSONResponse cause))
  /\ (exists parsed,
        JSON.parse (cleanResponse automatableReply) = Some parsed
        /\ parseAndValidateResponse automatableReply = inr parsed)
  /\ cleanResponse ("Here it is: {} done") = "{}".
Proof.
  split; [| split].
  - apply (proj1 (parseAndValidateResponse_refuses nullWorkflowReply)).
    reflexivity.
  - apply (proj1 (proj2 (parseAndValidateResponse_refuses automatableReply))).
    reflexivity.
  - apply (proj1 (proj2 (proj2 (parseAndValidateResponse_refuses
                                    "Here it is: {} done")))
             "Here it is: " EmptyString " done").
    + reflexivity.
    + simpl. repeat split; discriminate.
    + simpl. repeat split; discriminate.
Defined.

(** C6, as stated, fails on a response whose [workflow] is there but
    null: no field is missing, and the validator refuses it. *)
Lemma null_workflow_is_refused :
  refusedByPresence nullWorkflowReply = false
  /\ JSON.parse (cleanResponse nullWorkflowReply)
     = Some (JObj [("automatable", JBool true); ("workflow", JNull)])
  /\ parseAndValidateResponse nullWorkflowReply
     = inl (InvalidJSONResponse missingWorkflow).
Proof. repeat split; vm_compute; reflexivity. Qed.

(** C10: the validator tests [workflow] and [reason] for truthiness: a
    response whose [workflow] is present but null, false, zero or the empty
    string is refused as one without workflow, and one whose [reason] is
    present but empty as one without reason. *)
Theorem validator_tests_truthiness :
  (forall response props value,
      JSON.parse (cleanResponse response) = Some (JObj props) ->
      getProp "automatable" props = Some (JBool true) ->
      getProp "workflow" props = Some value ->
      truthy (Some value) = false ->
      parseAndValidateResponse response = inl (InvalidJSONResponse missingWorkflow))
  /\ (forall response props value,
         JSON.parse (cleanResponse response) = Some (JObj props) ->
         getProp "automatable" props = Some (JBool false) ->
         getProp "reason" props = Some value ->
         truthy (Some value) = false ->
         parseAndValidateResponse response = inl (InvalidJSONResponse missingReason))
  /\ Forall (fun response =>
               (exists parsed, JSON.parse (cleanResponse response) = Some parsed
                               /\ is_Some (fieldOf parsed "workflow"))
               /\ parseAndValidateResponse response
                  = inl (InvalidJSONResponse missingWorkflow))
            [nullWorkflowReply; falseWorkflowReply; zeroWorkflowReply;
             emptyWorkflowReply]
  /\ (exists parsed, JSON.parse (cleanResponse emptyReasonReply) = Some parsed
                     /\ is_Some (fieldOf parsed "reason"))
  /\ parseAndValidateResponse emptyReasonReply
     = inl (InvalidJSONResponse missingReason).
Proof.
  split; [| split; [| split; [| split]]].
  - intros response props value Hp Ha Hw Hv.
    rewrite parseAndValidateResponse_eq, Hp. simpl. now rewrite Ha, Hw, Hv.
  - intros response props value Hp Ha Hr Hv.
    rewrite parseAndValidateResponse_eq, Hp. simpl. now rewrite Ha, Hr, Hv.
  - repeat constructor; try (vm_compute; reflexivity);
      eexists; (split; [vm_compute; reflexivity | vm_compute; eauto]).
  - eexists. split; [vm_compute; reflexivity | vm_compute; eauto].
  - vm_compute. reflexivity.
Qed.

Lemma validator_tests_truthiness_witness :
  parseAndValidateResponse nullWorkflowReply = inl (InvalidJSONResponse missingWorkflow)
  /\ parseAndValidateResponse emptyReasonReply = inl (InvalidJSONResponse missingReason).
Proof.
  split.
  - apply (proj1 validator_tests_truthiness nullWorkflowReply
             [("automatable", JBool true); ("workflow", JNull)] JNull);
      reflexivity.
  - apply (proj1 (proj2 validator_tests_truthiness) emptyReasonReply
             [("automatable", JBool false); ("reason", JStr EmptyString)]
             (JStr EmptyString));
      reflexivity.
Defined.

(** ** The LLM client *)

(** The method [callGemini] is the second declaration: one call to the
    model, whatever the outcome. *)
Lemma callGemini_eq (E : Env) (taskDescription modelName : string) (w : World) :
  callGemini E taskDescription modelName w =
  (match gemini E (geminiCalls w) modelName (promptFor taskDescription) with
   | inl e => inl (FailedToCallGemini e)
   | inr text => inr (Some text)
   end, afterCall w).
Proof.
  change (callGemini E taskDescription modelName)
    with (callGemini_second E taskDescription modelName).
  unfold callGemini_second, generateText. unfold_M.
  destruct (gemini E (geminiCalls w) modelName (promptFor taskDescription));
    reflexivity.
Qed.

Lemma callGemini_one_call (E : Env) (taskDescription modelName : string) (w : World) :
  geminiCalls (callGemini E taskDescription modelName w).2 = S (geminiCalls w)
  /\ sleeps (callGemini E taskDescription modelName w).2 = sleeps w.
Proof. rewrite callGemini_eq. split; reflexivity. Qed.

(** One turn of the loop of the first declaration. *)
Lemma attempts_step (E : Env) (d m : string) (retries remaining : nat) (delay : Z)
    (w : World) :
  attempts E d m retries delay (S remaining) w =
  match gemini E (geminiCalls w) m (promptFor d) with
  | inr text => (inr (Some text), afterCall w)
  | inl e =>
      if decide (statusOf e = Some 503 /\ (retries - remaining < retries)%nat)
      then attempts E d m retries delay remaining (afterSleep delay (afterCall w))
      else (inl (FailedToCallGemini e), afterCall w)
  end.
Proof.
  cbn [attempts]. unfold generateText. unfold_M.
  destruct (gemini E (geminiCalls w) m (promptFor d)) as [e|text]; [| reflexivity].
  case_decide; reflexivity.
Qed.

(** The first declaration does what C1 tells: overloaded twice, it waits
    thirty seconds twice and returns the text of the third call. *)
Lemma callGemini_first_retries (E : Env) (d m text : string) (w : World)
    (e1 e2 : JsError) :
  gemini E (geminiCalls w) m (promptFor d) = inl e1 -> statusOf e1 = Some 503 ->
  gemini E (S (geminiCalls w)) m (promptFor d) = inl e2 -> statusOf e2 = Some 503 ->
  gemini E (S (S (geminiCalls w))) m (promptFor d) = inr text ->
  callGemini_first E d m 3 30000 w =
  (inr (Some text),
   afterCall (afterSleep 30000 (afterCall (afterSleep 30000 (afterCall w))))).
Proof.
  intros H1 S1 H2 S2 H3. unfold callGemini_first.
  rewrite attempts_step, H1. rewrite decide_True by (split; [exact S1 | lia]).
  rewrite attempts_step. cbn [geminiCalls afterSleep afterCall]. rewrite H2.
  rewrite decide_True by (split; [exact S2 | lia]).
  rewrite attempts_step. cbn [geminiCalls afterSleep afterCall]. rewrite H3.
  reflexivity.
Qed.

(** Overloaded three times, it gives up at the third call. *)
Lemma callGemini_first_gives_up (E : Env) (d m : string) (w : World)
    (e1 e2 e3 : JsError) :
  gemini E (geminiCalls w) m (promptFor d) = inl e1 -> statusOf e1 = Some 503 ->
  gemini E (S (geminiCalls w)) m (promptFor d) = inl e2 -> statusOf e2 = Some 503 ->
  gemini E (S (S (geminiCalls w))) m (promptFor d) = inl e3 ->
  callGemini_first E d m 3 30000 w =
  (inl (FailedToCallGemini e3),
   afterCall (afterSleep 30000 (afterCall (afterSleep 30000 (afterCall w))))).
Proof.
  intros H1 S1 H2 S2 H3. unfold callGemini_first.
  rewrite attempts_step, H1. rewrite decide_True by (split; [exact S1 | lia]).
  rewrite attempts_step. cbn [geminiCalls afterSleep afterCall]. rewrite H2.
  rewrite decide_True by (split; [exact S2 | lia]).
  rewrite attempts_step. cbn [geminiCalls afterSleep afterCall]. rewrite H3.
  rewrite decide_False by lia. reflexivity.
Qed.

(** Any other failure ends either declaration after one call, with the
    cause wrapped. *)
Lemma callGemini_not_retryable (E : Env) (d m : string) (w : World) (e : JsError) :
  gemini E (geminiCalls w) m (promptFor d) = inl e -> statusOf e <> Some 503 ->
  callGemini_first E d m 3 30000 w = (inl (FailedToCallGemini e), afterCall w)
  /\ callGemini E d m w = (inl (FailedToCallGemini e), afterCall w).
Proof.
  intros H Hs. split.
  - unfold callGemini_first. rewrite attempts_step, H.
    rewrite decide_False by tauto. reflexivity.
  - rewrite callGemini_eq, H. reflexivity.
Qed.

(** C1: with the model overloaded on the first two calls and answering
    the third, the method [callGemini] fails after one call and without
    waiting, the second declaration of the class having replaced the
    first; the first declaration would have returned the text after three
    calls and two waits of thirty seconds. *)
Theorem callGemini_does_not_retry :
  let E := serverEnv overloadedTwice (Some "key") engine in
  callGemini E "water the plants" "gemini-2.5-flash" emptyWorld
  = (inl (FailedToCallGemini (ExternalError (Some 503) "The model is overloaded")),
     afterCall emptyWorld)
  /\ geminiCalls (callGemini E "water the plants" "gemini-2.5-flash" emptyWorld).2
     = 1%nat
  /\ sleeps (callGemini E "water the plants" "gemini-2.5-flash" emptyWorld).2 = []
  /\ (callGemini_first E "water the plants" "gemini-2.5-flash" 3 30000 emptyWorld).1
     = inr (Some automatableReply)
  /\ geminiCalls
       (callGemini_first E "water the plants" "gemini-2.5-flash" 3 30000 emptyWorld).2
     = 3%nat
  /\ sleeps
       (callGemini_first E "water the plants" "gemini-2.5-flash" 3 30000 emptyWorld).2
     = [30000; 30000]
  /\ (forall (E' : Env) (d m : string) (w : World),
         geminiCalls (callGemini E' d m w).2 = S (geminiCalls w)
         /\ sleeps (callGemini E' d m w).2 = sleeps w).
Proof.
  repeat split; try (vm_compute; reflexivity); apply callGemini_one_call.
Qed.

(** Always overloaded, the first declaration gives up at its third call;
    the method, at its first. *)
Example overloaded_throughout :
  let E := serverEnv alwaysOverloaded (Some "key") engine in
  geminiCalls
    (callGemini_first E "water the plants" "gemini-2.5-flash" 3 30000 emptyWorld).2
  = 3%nat
  /\ (callGemini_first E "water the plants" "gemini-2.5-flash" 3 30000 emptyWorld).1
     = inl (FailedToCallGemini (ExternalError (Some 503) "The model is overloaded"))
  /\ geminiCalls (callGemini E "water the plants" "gemini-2.5-flash" emptyWorld).2
     = 1%nat.
Proof. repeat split; vm_compute; reflexivity. Qed.

(** ** The dispatcher *)

Section Dispatcher.

Context (E : Env).

(** [executeN8nWorkflow], step by step. *)
Lemma executeN8nWorkflow_eq (workflow : JsVal) (taskId : Z) (w : World) :
  executeN8nWorkflow E workflow taskId w =
  match N8N_API_KEY E with
  | Some (String c k) =>
      let key := String c k in
      match axios E with
      | None => (inl (ReferenceError "axios"), w)
      | Some client =>
          let w1 := sent (creation workflow key) w in
          match client (requests w) (creation workflow key) with
          | inl e => (inl e, w1)
          | inr data =>
              match dataId data with
              | inl e => (inl e, w1)
              | inr workflowId =>
                  let w2 := sent (execution workflowId key) w1 in
                  match client (requests w1) (execution workflowId key) with
                  | inl e => (inl e, w2)
                  | inr _ => (inr {| d_success := true; workflowId := workflowId |}, w2)
                  end
              end
          end
      end
  | _ => (inl (Error "N8N_API_KEY not configured in environment variables"), w)
  end.
Proof.
  unfold executeN8nWorkflow, try_catch, throw.
  destruct (N8N_API_KEY E) as [[|c k]|]; try reflexivity.
  unfold mbind, M_bind, post, lift, throw.
  destruct (axios E) as [client|]; [| reflexivity]. cbn zeta.
  destruct (client (requests w) (creation workflow (String c k))) as [e|data];
    [reflexivity |].
  destruct (dataId data) as [e|wid]; [reflexivity |].
  destruct (client (requests (sent _ w)) (execution wid (String c k)));
    reflexivity.
Qed.

(** The dispatcher touches neither the task table nor the clock. *)
Lemma executeN8nWorkflow_frame (workflow : JsVal) (taskId : Z) (w : World) :
  let w' := (executeN8nWorkflow E workflow taskId w).2 in
  tasks w' = tasks w /\ next_id w' = next_id w /\ clock w' = clock w.
Proof.
  rewrite executeN8nWorkflow_eq.
  destruct (N8N_API_KEY E) as [[|c k]|]; try (repeat split; reflexivity).
  cbn zeta. destruct (axios E) as [client|]; [| repeat split; reflexivity].
  destruct (client _ _) as [e|data]; [repeat split; reflexivity |].
  destruct (dataId data) as [e|wid]; [repeat split; reflexivity |].
  destruct (client _ _); repeat split; reflexivity.
Qed.

(** Without the credential the dispatcher fails and sends nothing. *)
Lemma executeN8nWorkflow_no_key (workflow : JsVal) (taskId : Z) (w : World) :
  N8N_API_KEY E = None \/ N8N_API_KEY E = Some EmptyString ->
  executeN8nWorkflow E workflow taskId w
  = (inl (Error "N8N_API_KEY not configured in environment variables"), w).
Proof. rewrite executeN8nWorkflow_eq. intros [-> | ->]; reflexivity. Qed.

(** The body of the creation request is the workflow marked active. *)
Lemma getProp_setProp (k k' : string) (v : JValue) (props : list (string * JValue)) :
  getProp k' (setProp k v props) = if String.eqb k k' then Some v else getProp k' props.
Proof.
  induction props as [|[k0 v0] props IH]; simpl.
  - destruct (String.eqb k k'); reflexivity.
  - destruct (String.eqb k0 k) eqn:E0; simpl.
    + apply String.eqb_eq in E0. subst k0.
      destruct (String.eqb k k'); reflexivity.
    + destruct (String.eqb k0 k') eqn:E1; [| exact IH].
      apply String.eqb_eq in E1. subst k0.
      apply String.eqb_neq in E0.
      destruct (String.eqb k k') eqn:E2; [| reflexivity].
      apply String.eqb_eq in E2. congruence.
Qed.

Lemma creation_active (workflow : JsVal) (key : string) :
  fieldOf (body (creation workflow key)) "active" = Some (JBool true)
  /\ (forall k, k <> "active" ->
                fieldOf (body (creation workflow key)) k = getProp k (ownProps workflow))
  /\ url (creation workflow key) = WorkflowsUrl
  /\ apiKey (creation workflow key) = key.
Proof.
  unfold creation, fieldOf. cbn [body url apiKey]. repeat split.
  - rewrite getProp_setProp. reflexivity.
  - intros k Hk. rewrite getProp_setProp.
    destruct (String.eqb "active" k) eqn:Eq; [| reflexivity].
    apply String.eqb_eq in Eq. congruence.
Qed.

(** With the client library bound and the credential set, the dispatcher
    first sends the workflow, marked active, to the creation address, then
    calls the execution address of the identifier the first answer holds;
    it succeeds when both calls do, and when the second fails it throws
    the failure and sends nothing more. *)
Lemma executeN8nWorkflow_protocol (workflow : JsVal) (taskId : Z) (w : World)
    (c : ascii) (k : string)
    (client : list Request -> Request -> JsError + JsVal)
    (data workflowId : JsVal) :
  N8N_API_KEY E = Some (String c k) ->
  axios E = Some client ->
  let key := String c k in
  let w1 := sent (creation workflow key) w in
  let w2 := sent (execution workflowId key) w1 in
  client (requests w) (creation workflow key) = inr data ->
  dataId data = inr workflowId ->
  requests w2
    = (requests w ++ [creation workflow key; execution workflowId key])%list
  /\ (forall answer,
         client (requests w1) (execution workflowId key) = inr answer ->
         executeN8nWorkflow E workflow taskId w
         = (inr {| d_success := true; workflowId := workflowId |}, w2))
  /\ (forall e,
         client (requests w1) (execution workflowId key) = inl e ->
         executeN8nWorkflow E workflow taskId w = (inl e, w2)).
Proof.
  intros Hk Ha key w1 w2 Hc Hd. split; [| split].
  - subst w2 w1. cbn [requests sent]. now rewrite <- app_assoc.
  - intros answer Hx. rewrite executeN8nWorkflow_eq, Hk, Ha. cbn zeta.
    fold key. rewrite Hc, Hd. fold w1. rewrite Hx. reflexivity.
  - intros e Hx. rewrite executeN8nWorkflow_eq, Hk, Ha. cbn zeta.
    fold key. rewrite Hc, Hd. fold w1. rewrite Hx. reflexivity.
Qed.


End Dispatcher.

(** With the client bound and an engine that registers and then refuses
    to run, the workflow stays registered: two requests have gone out and
    the failure of the second is what the dispatcher throws. *)
Example registered_not_executed :
  executeN8nWorkflow refusingEnv sampleWorkflow 1 emptyWorld
  = (inl (ExternalError (Some 500) "Request failed with status code 500"),
     sent (execution (Some (JStr "wf-1")) "key")
       (sent (creation sampleWorkflow "key") emptyWorld))
  /\ body (creation sampleWorkflow "key")
     = JObj [("name", JStr "Plants"); ("nodes", JArr []); ("active", JBool true)].
Proof. split; vm_compute; reflexivity. Qed.

(** C7: the server module binds no identifier [axios]; with the
    credential set, the dispatcher throws a ReferenceError where it names
    the client, before anything is sent, whatever the workflow. *)
Theorem executeN8nWorkflow_axios_unbound
    (model : nat -> string -> string -> JsError + string)
    (client : list Request -> Request -> JsError + JsVal)
    (c : ascii) (k : string) (workflow : JsVal) (taskId : Z) (w : World) :
  bound "axios" = false
  /\ axios (serverEnv model (Some (String c k)) client) = None
  /\ executeN8nWorkflow (serverEnv model (Some (String c k)) client) workflow taskId w
     = (inl (ReferenceError "axios"), w)
  /\ requests
       (executeN8nWorkflow (serverEnv model (Some (String c k)) client)
          workflow taskId w).2
     = requests w.
Proof.
  assert (H : executeN8nWorkflow (serverEnv model (Some (String c k)) client)
                workflow taskId w = (inl (ReferenceError "axios"), w)).
  { rewrite executeN8nWorkflow_eq. reflexivity. }
  repeat split; try reflexivity; now rewrite H.
Qed.

(** ** The orchestrator *)

Section Runs.

Context (E : Env).

Lemma update_found (taskId : Z) (data : Task -> Task) (w : World) (t : Task) :
  tasks w !! taskId = Some t ->
  update taskId data w = (inr (data t), setTasks <[taskId := data t]> 0 w).
Proof. intros H. unfold update. now rewrite H. Qed.

Lemma update_missing (taskId : Z) (data : Task -> Task) (w : World) :
  tasks w !! taskId = None ->
  update taskId data w = (inl (PrismaError "P2025"), w).
Proof. intros H. unfold update. now rewrite H. Qed.

(** [processTask] never throws: it makes one call to the model and
    answers with the validated decision, or with the fallback decision
    when the call or the validation has failed. *)
Lemma processTask_eq (d : string) (w : World) :
  processTask E d w =
  (inr match gemini E (geminiCalls w) (selectModel d) (promptFor d) with
       | inl e => notSucceeded (FailedToCallGemini e)
       | inr text =>
           match parseAndValidateResponse text with
           | inl e => notSucceeded e
           | inr parsed => succeeded (selectModel d) parsed
           end
       end, afterCall w).
Proof.
  unfold processTask. unfold_M. rewrite callGemini_eq.
  destruct (gemini E (geminiCalls w) (selectModel d) (promptFor d)) as [e|text];
    [reflexivity |].
  unfold lift. destruct (parseAndValidateResponse text); reflexivity.
Qed.

(** What the validator lets through is an object whose [automatable] is a
    boolean, with a truthy [workflow] when it is true and a truthy [reason]
    when it is false. *)
Lemma validated_inv (text : string) (parsed : JValue) :
  parseAndValidateResponse text = inr parsed ->
  exists props,
    parsed = JObj props
    /\ ((getProp "automatable" props = Some (JBool true)
         /\ truthy (getProp "workflow" props) = true)
        \/ (getProp "automatable" props = Some (JBool false)
            /\ truthy (getProp "reason" props) = true)).
Proof.
  rewrite parseAndValidateResponse_eq.
  destruct (JSON.parse (cleanResponse text)) as [p|]; [| discriminate].
  destruct p as [|b|m e|s|items|props]; try discriminate. simpl.
  destruct (getProp "automatable" props) as [[|[|]|m e|s|items|props']|] eqn:Ea;
    try discriminate.
  - destruct (truthy (getProp "workflow" props)) eqn:Ew; [| discriminate].
    intros [= <-]. exists props. rewrite Ea. auto.
  - destruct (truthy (getProp "reason" props)) eqn:Er; [| discriminate].
    intros [= <-]. exists props. rewrite Ea. auto.
Qed.

(** The world and the task of a run once in progress. *)
Lemma inProgress_found (taskId : Z) (w : World) (t : Task) :
  tasks w !! taskId = Some t ->
  inProgress taskId w
  = setTasks <[taskId := setStatusType in_progress "gemini_processing" t]> 0 w.
Proof. intros H. unfold inProgress. now rewrite (update_found _ _ _ _ H). Qed.

(** A pipeline run on a task of the table, by cases on the answer of the
    model, on the validation and on the dispatch. *)
Lemma processTaskWithGemini_eq (taskId : Z) (d email : string)
    (w : World) (t : Task) :
  tasks w !! taskId = Some t ->
  let t1 := setStatusType in_progress "gemini_processing" t in
  let w2 := afterCall (inProgress taskId w) in
  let declined decision model :=
    finished taskId t1 failed
      (DeclinedPayload decision "google" model
         (orDefault (fieldOf decision "reason") (JStr "Gemini AI processing failed"))
         (clock w2))
      "not_automatable" w2 in
  processTaskWithGemini E taskId d email w =
  match gemini E (geminiCalls w) (selectModel d) (promptFor d) with
  | inl e => declined fallbackDecision None
  | inr text =>
      match parseAndValidateResponse text with
      | inl e => declined fallbackDecision None
      | inr parsed =>
          match fieldOf parsed "automatable" with
          | Some (JBool true) =>
              match executeN8nWorkflow E (fieldOf parsed "workflow") taskId w2 with
              | (inr n, w3) =>
                  finished taskId t1 completed
                    (CompletedPayload parsed "google" (Some (selectModel d)) true
                       (workflowId n) (clock w3))
                    "automatable" w3
              | (inl e, w3) =>
                  finished taskId t1 failed (ErrorPayload e (clock w3))
                    "processing_error" w3
              end
          | _ => declined parsed (Some (selectModel d))
          end
      end
  end.
Proof.
  intros Ht t1 w2 declined.
  assert (H1 : tasks (inProgress taskId w) !! taskId = Some t1).
  { rewrite (inProgress_found _ _ _ Ht). cbn [tasks setTasks].
    apply lookup_insert_eq. }
  assert (H2 : tasks w2 !! taskId = Some t1) by exact H1.
  assert (Hdecl : forall g,
             success g && truthy (fieldOf (r_result g) "automatable") = false ->
             member (r_result g) "reason" = inr (fieldOf (r_result g) "reason") ->
             (success g = true ->
              member (r_result g) "automatable"
              = inr (fieldOf (r_result g) "automatable")) ->
             processTask E d (inProgress taskId w) = (inr g, w2) ->
             processTaskWithGemini E taskId d email w
             = declined (r_result g) (r_model g)).
  { intros g Hg Hr Ha Hp.
    unfold processTaskWithGemini. unfold_M.
    rewrite (update_found _ _ _ _ Ht).
    rewrite <- (inProgress_found _ _ _ Ht), Hp.
    unfold lift, mret, M_ret.
    destruct (success g) eqn:Es.
    - rewrite (Ha eq_refl). simpl in Hg. rewrite Hg. simpl.
      rewrite Hr. unfold currentTime. rewrite (update_found _ _ _ _ H2). reflexivity.
    - simpl. rewrite Hr. unfold currentTime. rewrite (update_found _ _ _ _ H2).
      reflexivity. }
  pose proof (processTask_eq d (inProgress taskId w)) as Hp.
  fold w2 in Hp.
  replace (geminiCalls (inProgress taskId w)) with (geminiCalls w) in Hp
    by (rewrite (inProgress_found _ _ _ Ht); reflexivity).
  destruct (gemini E (geminiCalls w) (selectModel d) (promptFor d)) as [e|text].
  { apply (Hdecl (notSucceeded (FailedToCallGemini e))); try reflexivity.
    exact Hp. }
  destruct (parseAndValidateResponse text) as [e|parsed] eqn:Ev.
  { apply (Hdecl (notSucceeded e)); try reflexivity. exact Hp. }
  destruct (validated_inv _ _ Ev) as (props & -> & [[Ea Ew] | [Ea Er]]).
  - cbn [fieldOf]. rewrite Ea.
    unfold processTaskWithGemini. unfold_M.
    rewrite (update_found _ _ _ _ Ht).
    rewrite <- (inProgress_found _ _ _ Ht), Hp.
    unfold lift, mret, M_ret. cbn [success succeeded r_result member r_model].
    rewrite Ea. cbn [truthy andb].
    pose proof (executeN8nWorkflow_frame E (getProp "workflow" props) taskId w2)
      as (Ft & _ & _). cbn zeta in Ft.
    destruct (executeN8nWorkflow E (getProp "workflow" props) taskId w2)
      as [[e|n] w3]; cbn [snd] in Ft.
    + unfold currentTime. rewrite (update_found _ _ w3 t1) by (now rewrite Ft).
      reflexivity.
    + unfold currentTime. rewrite (update_found _ _ w3 t1) by (now rewrite Ft).
      reflexivity.
  - cbn [fieldOf]. rewrite Ea.
    apply (Hdecl (succeeded (selectModel d) (JObj props))); try reflexivity.
    + cbn [success succeeded r_result fieldOf]. now rewrite Ea.
    + exact Hp.
Qed.

(** A run on an identifier the table does not hold changes nothing: both
    updates fail, the second one silently. *)
Lemma processTaskWithGemini_missing (taskId : Z) (d email : string)
    (w : World) :
  tasks w !! taskId = None ->
  processTaskWithGemini E taskId d email w = (inr tt, w).
Proof.
  intros H. unfold processTaskWithGemini. unfold_M.
  rewrite (update_missing _ _ _ H). unfold currentTime.
  rewrite (update_missing _ _ _ H). reflexivity.
Qed.


(** ** The result and the status *)

Lemma consistent_spec (t : Task) :
  consistent t <->
  (t_result t <> None <-> t_status t = completed \/ t_status t = failed).
Proof.
  unfold consistent, hasResult.
  destruct (t_result t) as [p|], (t_status t); simpl;
    intuition (discriminate || congruence).
Qed.


End Runs.

(** ** The endpoints *)









(** What [POST /api/task] does to the world: nothing, or one row more and
    a run started on it. *)
Lemma postTask_shape (req : CreateRequest) (w : World) :
  exists h,
    (postTask req w = (inr h, w) /\ spawned h = None)
    \/ (exists email task,
           postTask req w
           = (inr h, setTasks <[next_id w := created email task (c_userId req) w]> 1 w)
           /\ spawned h = Some (next_id w, task, email)).
Proof.
  unfold postTask. unfold_M.
  destruct (c_email req) as [[|c e]|]; try (eexists; left; split; reflexivity).
  destruct (negb (truthy (c_task req))); [eexists; left; split; reflexivity |].
  destruct (c_task req) as [[|b|m x|s|items|props]|];
    try (eexists; left; split; reflexivity).
  destruct (String.eqb (trim s) EmptyString); [eexists; left; split; reflexivity |].
  destruct (String.length (trim s) <? 3)%nat; [eexists; left; split; reflexivity |].
  eexists. right. exists (String c e), (trim s). split; reflexivity.
Qed.

(** What [POST /api/task/:id/retry] does: nothing, or the task is pending
    again, without result, and a run is started on it. *)
Lemma postRetry_shape (req : TaskRequest) (w : World) :
  exists h,
    (postRetry req w = (inr h, w) /\ spawned h = None)
    \/ (exists taskId t,
           tasks w !! taskId = Some t
           /\ postRetry req w
              = (inr h, setTasks <[taskId := setOutcome pending None "retry" t]> 0 w)
           /\ spawned h = Some (taskId, t_task t, t_email t)).
Proof.
  unfold postRetry, numbered, findUnique. unfold_M.
  destruct (q_id req) as [i|]; [| eexists; left; split; reflexivity].
  destruct (tasks w !! i) as [t|] eqn:Ht; [| eexists; left; split; reflexivity].
  case_decide; [| eexists; left; split; reflexivity].
  rewrite (update_found _ _ _ _ Ht).
  eexists. right. exists i, t. repeat split. exact Ht.
Qed.


Lemma served_quiet (E : Env) (handler : M Handled) (w w' : World) (h : Handled) :
  handler w = (inr h, w') -> spawned h = None ->
  served E handler w = (inr (response h), w').
Proof.
  intros H Hs. unfold served, mbind, M_bind. now rewrite H, Hs.
Qed.

Lemma served_spawning (E : Env) (handler : M Handled) (w w' : World) (h : Handled)
    (taskId : Z) (d email : string) :
  handler w = (inr h, w') -> spawned h = Some (taskId, d, email) ->
  (served E handler w).2 = (processTaskWithGemini E taskId d email w').2.
Proof.
  intros H Hs. unfold served, mbind, M_bind. rewrite H, Hs.
  destruct (processTaskWithGemini E taskId d email w') as [[e|[]] w'']; reflexivity.
Qed.






(** ** The payload of a failed run *)

Lemma inProgress_calls (taskId : Z) (w : World) :
  geminiCalls (inProgress taskId w) = geminiCalls w
  /\ clock (inProgress taskId w) = clock w.
Proof.
  unfold inProgress, update. destruct (tasks w !! taskId); split; reflexivity.
Qed.

Lemma taskAfterRun_declined (E : Env) (taskId : Z) (d email : string) (w : World)
    (t : Task) :
  tasks w !! taskId = Some t ->
  (exists e, gemini E (geminiCalls w) (selectModel d) (promptFor d) = inl e)
  \/ (exists text e,
         gemini E (geminiCalls w) (selectModel d) (promptFor d) = inr text
         /\ parseAndValidateResponse text = inl e) ->
  taskAfterRun E taskId d email w
  = Some (setOutcome failed
            (Some (DeclinedPayload fallbackDecision "google" None
                     (JStr "Failed to process task with Gemini AI") (clock w)))
            "not_automatable" (setStatusType in_progress "gemini_processing" t)).
Proof.
  intros Ht H. unfold taskAfterRun.
  rewrite (processTaskWithGemini_eq _ _ _ _ _ _ Ht). cbn zeta.
  assert (Hc : clock (afterCall (inProgress taskId w)) = clock w)
    by (cbn [clock afterCall]; apply inProgress_calls).
  destruct H as [[e He] | (text & e & He & Hv)]; rewrite He; [| rewrite Hv];
    cbn [finished snd tasks setTasks]; rewrite lookup_insert_eq, Hc; reflexivity.
Qed.

(** C2, as amended: in a run that has reached in-progress, a failure of
    the dispatcher leaves the task failed with the error, its trace and a
    timestamp as result; a failure of the LLM client or of the validator is
    absorbed by [processTask], and leaves the task failed with the result
    of a declined task: the fallback decision, the provider, its reason
    and a timestamp. *)
Theorem pipeline_failure_payloads (E : Env) (taskId : Z) (d email : string)
    (w : World) (t : Task) :
  tasks w !! taskId = Some t ->
  let w1 := inProgress taskId w in
  let t1 := setStatusType in_progress "gemini_processing" t in
  (forall e,
      dispatcherFails E taskId d w1 e ->
      taskAfterRun E taskId d email w
      = Some (setOutcome failed (Some (ErrorPayload e (clock w))) "processing_error" t1))
  /\ (forall e,
         llmClientFails E d w1 e \/ validatorFails E d w1 e ->
         taskAfterRun E taskId d email w
         = Some (setOutcome failed
                   (Some (DeclinedPayload fallbackDecision "google" None
                            (JStr "Failed to process task with Gemini AI") (clock w)))
                   "not_automatable" t1)).
Proof.
  intros Ht w1 t1.
  destruct (inProgress_calls taskId w) as [Hn Hc]. fold w1 in Hn, Hc.
  split.
  - intros e (text & w2 & parsed & w3 & Hg & Hv & Ha & Hx).
    rewrite callGemini_eq, Hn in Hg.
    destruct (gemini E (geminiCalls w) (selectModel d) (promptFor d)) as [e0|text0]
      eqn:Eg; [discriminate |].
    injection Hg as -> <-.
    unfold taskAfterRun. rewrite (processTaskWithGemini_eq _ _ _ _ _ _ Ht). cbn zeta.
    rewrite Eg, Hv, Ha. fold w1. rewrite Hx.
    cbn [finished snd tasks setTasks]. rewrite lookup_insert_eq.
    pose proof (executeN8nWorkflow_frame E (fieldOf parsed "workflow") taskId
                  (afterCall w1)) as (_ & _ & Fc).
    cbn zeta in Fc. rewrite Hx in Fc. cbn [snd clock afterCall] in Fc.
    now rewrite Fc, Hc.
  - intros e H. apply taskAfterRun_declined; [exact Ht |].
    destruct H as [[w2 Hg] | (text & w2 & Hg & Hv)];
      rewrite callGemini_eq, Hn in Hg;
      destruct (gemini E (geminiCalls w) (selectModel d) (promptFor d)) as [e0|text0];
      try discriminate.
    + left. eauto.
    + right. injection Hg as -> _. eauto.
Qed.

Lemma pipeline_failure_payloads_witness :
  taskAfterRun refusingEnv 1 "water the plants" "ann@example.org" oneTask
  = Some (setOutcome failed
            (Some (ErrorPayload
                     (ExternalError (Some 500) "Request failed with status code 500")
                     1000))
            "processing_error"
            (setStatusType in_progress "gemini_processing" sampleTask))
  /\ taskAfterRun (serverEnv badKey (Some "key") engine) 1 "water the plants"
       "ann@example.org" oneTask
     = Some (setOutcome failed
               (Some (DeclinedPayload fallbackDecision "google" None
                        (JStr "Failed to process task with Gemini AI") 1000))
               "not_automatable"
               (setStatusType in_progress "gemini_processing" sampleTask)).
Proof.
  split.
  - apply (proj1 (pipeline_failure_payloads refusingEnv 1 "water the plants"
                    "ann@example.org" oneTask sampleTask eq_refl)).
    eexists _, _, _, _. repeat split; vm_compute; reflexivity.
  - apply (proj2 (pipeline_failure_payloads (serverEnv badKey (Some "key") engine) 1
                    "water the plants" "ann@example.org" oneTask sampleTask eq_refl)
             (FailedToCallGemini (ExternalError (Some 400) "API key not valid"))).
    left. eexists. vm_compute. reflexivity.
Defined.

(** C2, as stated, fails when the LLM client fails: the task is failed,
    and its result is that of a declined task, not an error with its
    trace. *)
Lemma llm_failure_recorded_as_declined :
  let E := serverEnv badKey (Some "key") engine in
  llmClientFails E "water the plants" (inProgress 1 oneTask)
    (FailedToCallGemini (ExternalError (Some 400) "API key not valid"))
  /\ taskAfterRun E 1 "water the plants" "ann@example.org" oneTask
     = Some (setOutcome failed
               (Some (DeclinedPayload fallbackDecision "google" None
                        (JStr "Failed to process task with Gemini AI") 1000))
               "not_automatable"
               (setStatusType in_progress "gemini_processing" sampleTask))
  /\ ~ errorRecorded (taskAfterRun E 1 "water the plants" "ann@example.org" oneTask).
Proof.
  intros E.
  assert (H : taskAfterRun E 1 "water the plants" "ann@example.org" oneTask
              = Some (setOutcome failed
                        (Some (DeclinedPayload fallbackDecision "google" None
                                 (JStr "Failed to process task with Gemini AI") 1000))
                        "not_automatable"
                        (setStatusType in_progress "gemini_processing" sampleTask)))
    by (vm_compute; reflexivity).
  split; [eexists; vm_compute; reflexivity |].
  split; [exact H |].
  rewrite H. intros (t' & e & timestamp & [= <-] & _ & Hr). discriminate Hr.
Qed.

(** ** The server module as it is written *)

(** With no client library bound, a dispatch always fails; so every run
    on a task of the table leaves it failed, and none completes it. *)
Lemma serverEnv_dispatch_fails
    (model : nat -> string -> string -> JsError + string) (key : option string)
    (client : list Request -> Request -> JsError + JsVal)
    (workflow : JsVal) (taskId : Z) (w : World) :
  exists e, executeN8nWorkflow (serverEnv model key client) workflow taskId w = (inl e, w).
Proof.
  rewrite executeN8nWorkflow_eq.
  destruct key as [[|c k]|]; eexists; reflexivity.
Qed.

Lemma serverEnv_never_completes
    (model : nat -> string -> string -> JsError + string) (key : option string)
    (client : list Request -> Request -> JsError + JsVal)
    (taskId : Z) (d email : string) (w : World) (t : Task) :
  tasks w !! taskId = Some t ->
  exists t',
    taskAfterRun (serverEnv model key client) taskId d email w = Some t'
    /\ t_status t' = failed.
Proof.
  intros Ht. unfold taskAfterRun.
  rewrite (processTaskWithGemini_eq _ _ _ _ _ _ Ht). cbn zeta.
  destruct (gemini _ _ _ _) as [e|text];
    [cbn [finished snd tasks setTasks]; rewrite lookup_insert_eq; eauto |].
  destruct (parseAndValidateResponse text) as [e|parsed];
    [cbn [finished snd tasks setTasks]; rewrite lookup_insert_eq; eauto |].
  destruct (fieldOf parsed "automatable") as [[|[|]|m x|s|items|props]|];
    try (cbn [finished snd tasks setTasks]; rewrite lookup_insert_eq; eauto).
  destruct (serverEnv_dispatch_fails model key client (fieldOf parsed "workflow")
              taskId (afterCall (inProgress taskId w))) as [e ->].
  cbn [finished snd tasks setTasks]. rewrite lookup_insert_eq. eauto.
Qed.

(* ================================================================== *)
(** * Further properties *)

(** ** What a dispatch sends *)

(** What a dispatch leaves and what it adds, field by field. *)
Lemma executeN8nWorkflow_trace (E : Env) (workflow : JsVal) (taskId : Z) (w : World) :
  let w' := (executeN8nWorkflow E workflow taskId w).2 in
  tasks w' = tasks w /\ next_id w' = next_id w /\ geminiCalls w' = geminiCalls w
  /\ sleeps w' = sleeps w /\ clock w' = clock w
  /\ (requests w' = requests w
      \/ exists key,
           N8N_API_KEY E = Some key /\ key <> EmptyString
           /\ (requests w' = (requests w ++ [creation workflow key])%list
               \/ exists workflowId,
                    requests w'
                    = (requests w ++ [creation workflow key;
                                      execution workflowId key])%list)).
Proof.
  rewrite executeN8nWorkflow_eq.
  destruct (N8N_API_KEY E) as [[|c k]|] eqn:Hk; try (repeat split; now left).
  cbn zeta. destruct (axios E) as [client|]; [| repeat split; now left].
  assert (Hne : String c k <> EmptyString) by discriminate.
  destruct (client _ _) as [e|data].
  { repeat split. right. exists (String c k). repeat split; auto. }
  destruct (dataId data) as [e|wid].
  { repeat split. right. exists (String c k). repeat split; auto. }
  destruct (client _ _);
    (repeat split; right; exists (String c k); repeat split; auto; right;
     exists wid; cbn [snd requests sent]; now rewrite <- app_assoc).
Qed.

(** X1: a dispatch leaves the task table, the counter, the calls to the
    model, the waits and the clock as they were, and adds to the requests
    sent nothing, or the creation alone, or the creation followed by the
    execution of an identifier, all under the configured credential. *)
Theorem executeN8nWorkflow_sends (E : Env) (workflow : JsVal) (taskId : Z) (w : World) :
  let w' := (executeN8nWorkflow E workflow taskId w).2 in
  tasks w' = tasks w /\ next_id w' = next_id w /\ geminiCalls w' = geminiCalls w
  /\ sleeps w' = sleeps w /\ clock w' = clock w
  /\ (requests w' = requests w
      \/ exists key,
           N8N_API_KEY E = Some key /\ key <> EmptyString
           /\ (requests w' = (requests w ++ [creation workflow key])%list
               \/ exists workflowId,
                    requests w'
                    = (requests w ++ [creation workflow key;
                                      execution workflowId key])%list)).
Proof. exact (executeN8nWorkflow_trace E workflow taskId w). Qed.

(** ** What a run does to the world *)

(** A run on a task of the table, field by field. *)
Lemma run_summary (E : Env) (taskId : Z) (d email : string) (w : World) (t : Task) :
  tasks w !! taskId = Some t ->
  let w' := (processTaskWithGemini E taskId d email w).2 in
  exists status result type,
    terminal status = true
    /\ (processTaskWithGemini E taskId d email w).1 = inr tt
    /\ tasks w'
       = <[taskId := setOutcome status (Some result) type
                       (setStatusType in_progress "gemini_processing" t)]> (tasks w)
    /\ next_id w' = next_id w
    /\ geminiCalls w' = S (geminiCalls w)
    /\ sleeps w' = sleeps w
    /\ clock w' = clock w
    /\ (requests w' = requests w
        \/ exists key,
             N8N_API_KEY E = Some key /\ key <> EmptyString
             /\ exists workflow,
                  requests w' = (requests w ++ [creation workflow key])%list
                  \/ exists workflowId,
                       requests w'
                       = (requests w ++ [creation workflow key;
                                         execution workflowId key])%list).
Proof.
  intros Ht w'. subst w'. rewrite (processTaskWithGemini_eq _ _ _ _ _ _ Ht). cbn zeta.
  rewrite (inProgress_found _ _ _ Ht).
  set (t1 := setStatusType in_progress "gemini_processing" t).
  set (w2 := afterCall (setTasks <[taskId := t1]> 0 w)).
  assert (Hquiet : forall status result type,
             terminal status = true ->
             exists status' result' type',
               terminal status' = true
               /\ (finished taskId t1 status result type w2).1 = inr tt
               /\ tasks (finished taskId t1 status result type w2).2
                  = <[taskId := setOutcome status' (Some result') type' t1]> (tasks w)
               /\ next_id (finished taskId t1 status result type w2).2 = next_id w
               /\ geminiCalls (finished taskId t1 status result type w2).2
                  = S (geminiCalls w)
               /\ sleeps (finished taskId t1 status result type w2).2 = sleeps w
               /\ clock (finished taskId t1 status result type w2).2 = clock w
               /\ (requests (finished taskId t1 status result type w2).2 = requests w
                   \/ exists key,
                        N8N_API_KEY E = Some key /\ key <> EmptyString
                        /\ exists workflow,
                             requests (finished taskId t1 status result type w2).2
                             = (requests w ++ [creation workflow key])%list
                             \/ exists workflowId,
                                  requests (finished taskId t1 status result type w2).2
                                  = (requests w ++ [creation workflow key;
                                                    execution workflowId key])%list)).
  { intros status result type Hs. exists status, result, type.
    subst w2. cbn [finished fst snd tasks next_id geminiCalls sleeps clock requests
                     setTasks afterCall].
    rewrite insert_insert_eq. repeat split; auto; lia. }
  destruct (gemini E _ _ _) as [e|text]; [now apply Hquiet |].
  destruct (parseAndValidateResponse text) as [e|parsed]; [now apply Hquiet |].
  destruct (fieldOf parsed "automatable") as [[|[|]|m x|s|items|props]|];
    try (now apply Hquiet).
  pose proof (executeN8nWorkflow_trace E (fieldOf parsed "workflow") taskId w2)
    as (Ft & Fn & Fg & Fs & Fc & Fr).
  cbn zeta in *.
  destruct (executeN8nWorkflow E (fieldOf parsed "workflow") taskId w2) as [[e|n] w3];
    cbn [snd] in *.
  - eexists failed, _, _. cbn [finished fst snd tasks next_id geminiCalls sleeps clock
                                 requests setTasks].
    rewrite Ft, Fn, Fg, Fs, Fc. subst w2.
    cbn [tasks next_id geminiCalls sleeps clock requests setTasks afterCall] in *.
    rewrite insert_insert_eq. repeat split; auto; try lia.
    destruct Fr as [Fr | (key & Hk & Hne & Fr)]; [now left |].
    right. exists key. repeat split; auto. exists (fieldOf parsed "workflow"). exact Fr.
  - eexists completed, _, _. cbn [finished fst snd tasks next_id geminiCalls sleeps clock
                                    requests setTasks].
    rewrite Ft, Fn, Fg, Fs, Fc. subst w2.
    cbn [tasks next_id geminiCalls sleeps clock requests setTasks afterCall] in *.
    rewrite insert_insert_eq. repeat split; auto; try lia.
    destruct Fr as [Fr | (key & Hk & Hne & Fr)]; [now left |].
    right. exists key. repeat split; auto. exists (fieldOf parsed "workflow"). exact Fr.
Qed.

(** X2: a pipeline run never throws, whatever the environment, the
    identifier and the world: the detached call of the endpoints cannot be
    rejected. *)
Theorem processTaskWithGemini_never_throws (E : Env) (taskId : Z) (d email : string)
    (w : World) :
  (processTaskWithGemini E taskId d email w).1 = inr tt.
Proof.
  destruct (tasks w !! taskId) as [t|] eqn:Ht.
  - destruct (run_summary E taskId d email w t Ht) as (? & ? & ? & _ & H & _). exact H.
  - now rewrite (processTaskWithGemini_missing _ _ _ _ _ Ht).
Qed.

(** X3: a run for an identifier the table does not hold leaves the world
    as it was: the model is not called and nothing is sent to the engine. *)
Theorem run_on_unknown_task (E : Env) (taskId : Z) (d email : string) (w : World) :
  tasks w !! taskId = None ->
  let w' := (processTaskWithGemini E taskId d email w).2 in
  w' = w /\ geminiCalls w' = geminiCalls w /\ requests w' = requests w.
Proof.
  intros Ht. cbn zeta. now rewrite (processTaskWithGemini_missing _ _ _ _ _ Ht).
Qed.

Lemma run_on_unknown_task_witness :
  (processTaskWithGemini refusingEnv 7 "water the plants" "ann@example.org" oneTask).2
  = oneTask.
Proof.
  apply (run_on_unknown_task refusingEnv 7 "water the plants" "ann@example.org" oneTask).
  reflexivity.
Defined.

(** X4: a run writes the task it is given and no other: the counter and
    every other row are as before, no row appears or disappears, and the
    task keeps its identifier, owner, text and user, ends completed or
    failed, and has a result. *)
Theorem run_touches_one_task (E : Env) (taskId : Z) (d email : string) (w : World) :
  let w' := (processTaskWithGemini E taskId d email w).2 in
  next_id w' = next_id w
  /\ (forall i, i <> taskId -> tasks w' !! i = tasks w !! i)
  /\ (tasks w !! taskId = None -> tasks w' !! taskId = None)
  /\ (forall t, tasks w !! taskId = Some t ->
                exists t', tasks w' !! taskId = Some t'
                           /\ sameIdentity t t'
                           /\ terminal (t_status t') = true
                           /\ t_result t' <> None).
Proof.
  cbn zeta. destruct (tasks w !! taskId) as [t|] eqn:Ht.
  - destruct (run_summary E taskId d email w t Ht)
      as (status & result & type & Hs & _ & Hm & Hn & _).
    cbn zeta in *. rewrite Hm, Hn. repeat split.
    + intros i Hi. now apply lookup_insert_ne.
    + discriminate.
    + intros t0 [= <-]. eexists. rewrite lookup_insert_eq. split; [reflexivity |].
      repeat split; try exact Hs. discriminate.
  - rewrite (processTaskWithGemini_missing _ _ _ _ _ Ht). cbn [snd].
    repeat split; auto. rewrite Ht. discriminate.
Qed.

Lemma run_touches_one_task_witness :
  exists t',
    tasks (processTaskWithGemini refusingEnv 1 "water the plants" "ann@example.org"
             oneTask).2 !! 1 = Some t'
    /\ sameIdentity sampleTask t'
    /\ terminal (t_status t') = true
    /\ t_result t' <> None.
Proof.
  apply (proj2 (proj2 (proj2 (run_touches_one_task refusingEnv 1 "water the plants"
                                "ann@example.org" oneTask)))).
  reflexivity.
Defined.

(** X5: a run on a task of the table calls the model exactly once, waits
    for nothing, leaves the clock, and sends the engine two requests at
    most. *)
Theorem run_calls_model_once (E : Env) (taskId : Z) (d email : string) (w : World)
    (t : Task) :
  tasks w !! taskId = Some t ->
  let w' := (processTaskWithGemini E taskId d email w).2 in
  geminiCalls w' = S (geminiCalls w)
  /\ sleeps w' = sleeps w
  /\ clock w' = clock w
  /\ (length (requests w) <= length (requests w') <= length (requests w) + 2)%nat.
Proof.
  intros Ht. destruct (run_summary E taskId d email w t Ht)
    as (status & result & type & _ & _ & _ & _ & Hg & Hs & Hc & Hr).
  cbn zeta in *. repeat split; auto;
    destruct Hr as [-> | (key & _ & _ & workflow & [-> | [wid ->]])];
    rewrite ?length_app; simpl; lia.
Qed.

Lemma run_calls_model_once_witness :
  geminiCalls (processTaskWithGemini refusingEnv 1 "water the plants"
                 "ann@example.org" oneTask).2 = 1%nat.
Proof.
  apply (run_calls_model_once refusingEnv 1 "water the plants" "ann@example.org"
           oneTask sampleTask).
  reflexivity.
Defined.

(** ** How a run ends *)



(** X7: When the validator lets through a decision whose [automatable] is
    false, the run leaves the task failed with the decision, the provider,
    the model chosen and the decision's own reason as result, and sends
    nothing to the engine. *)
Theorem declined_task_is_not_dispatched (E : Env) (taskId : Z) (d email : string)
    (w : World) (t : Task) (text : string) (parsed : JValue) :
  tasks w !! taskId = Some t ->
  gemini E (geminiCalls w) (selectModel d) (promptFor d) = inr text ->
  parseAndValidateResponse text = inr parsed ->
  fieldOf parsed "automatable" = Some (JBool false) ->
  exists reason,
    fieldOf parsed "reason" = Some reason
    /\ truthy (Some reason) = true
    /\ taskAfterRun E taskId d email w
       = Some (setOutcome failed
                 (Some (DeclinedPayload parsed "google" (Some (selectModel d)) reason
                          (clock w)))
                 "not_automatable"
                 (setStatusType in_progress "gemini_processing" t))
    /\ requests (processTaskWithGemini E taskId d email w).2 = requests w.
Proof.
  intros Ht Hg Hv Ha. unfold taskAfterRun.
  rewrite (processTaskWithGemini_eq _ _ _ _ _ _ Ht). cbn zeta.
  rewrite Hg, Hv, Ha.
  destruct (validated_inv _ _ Hv) as (props & -> & [[Ea Ew] | [Ea Er]]);
    cbn [fieldOf] in *; [congruence |].
  destruct (getProp "reason" props) as [reason|] eqn:Hr; [| discriminate].
  exists reason. rewrite (inProgress_found _ _ _ Ht).
  cbn [finished snd tasks requests clock setTasks afterCall orDefault].
  rewrite Er, lookup_insert_eq. auto.
Qed.

Lemma declined_task_is_not_dispatched_witness :
  exists reason,
    taskAfterRun (serverEnv (answers declinedReply) (Some "key") engine) 1
      "water the plants" "ann@example.org" oneTask
    = Some (setOutcome failed
              (Some (DeclinedPayload
                       (JObj [("automatable", JBool false);
                              ("reason", JStr "needs a person")])
                       "google" (Some "gemini-2.5-flash") reason 1000))
              "not_automatable"
              (setStatusType in_progress "gemini_processing" sampleTask)).
Proof.
  destruct (declined_task_is_not_dispatched
              (serverEnv (answers declinedReply) (Some "key") engine) 1
              "water the plants" "ann@example.org" oneTask sampleTask declinedReply
              (JObj [("automatable", JBool false); ("reason", JStr "needs a person")]))
    as (reason & _ & _ & H & _); try reflexivity.
  exists reason. exact H.
Defined.

(** X8: Nothing is sent to the engine unless the model answered and the
    validator let the answer through with [automatable] true: a failure of
    the model, an invalid answer and a declined task never reach the
    dispatcher. *)
Theorem dispatch_needs_automatable (E : Env) (taskId : Z) (d email : string)
    (w : World) :
  requests (processTaskWithGemini E taskId d email w).2 <> requests w ->
  exists text parsed,
    gemini E (geminiCalls w) (selectModel d) (promptFor d) = inr text
    /\ parseAndValidateResponse text = inr parsed
    /\ fieldOf parsed "automatable" = Some (JBool true)
    /\ truthy (fieldOf parsed "workflow") = true.
Proof.
  destruct (tasks w !! taskId) as [t|] eqn:Ht;
    [| rewrite (processTaskWithGemini_missing _ _ _ _ _ Ht); intros H; now elim H].
  rewrite (processTaskWithGemini_eq _ _ _ _ _ _ Ht). cbn zeta.
  rewrite (inProgress_found _ _ _ Ht).
  destruct (gemini E _ _ _) as [e|text]; [intros H; now elim H |].
  destruct (parseAndValidateResponse text) as [e|parsed] eqn:Ev;
    [intros H; now elim H |].
  destruct (validated_inv _ _ Ev) as (props & -> & [[Ea Ew] | [Ea Er]]);
    cbn [fieldOf]; rewrite Ea; [| intros H; now elim H].
  intros _. exists text, (JObj props). auto.
Qed.

Lemma dispatch_needs_automatable_witness :
  exists text parsed,
    gemini workingEnv 0 (selectModel "water the plants") (promptFor "water the plants")
    = inr text
    /\ parseAndValidateResponse text = inr parsed
    /\ fieldOf parsed "automatable" = Some (JBool true)
    /\ truthy (fieldOf parsed "workflow") = true.
Proof.
  apply (dispatch_needs_automatable workingEnv 1 "water the plants" "ann@example.org"
           oneTask).
  vm_compute. discriminate.
Defined.

(** ** What [processTask] answers *)

(** X9: [processTask] never throws and calls the model once; what it answers
    is an object with a boolean [automatable] in every case: the fallback
    decision, with [automatable] false and no model, when it has not
    succeeded, and otherwise the validated decision with the model chosen
    and a truthy [workflow] or [reason]. *)
Theorem processTask_answers (E : Env) (d : string) (w : World) :
  exists g props b,
    processTask E d w = (inr g, afterCall w)
    /\ r_result g = JObj props
    /\ getProp "automatable" props = Some (JBool b)
    /\ (if success g
        then r_model g = Some (selectModel d) /\ r_error g = None
             /\ truthy (getProp (if b then "workflow" else "reason") props) = true
        else b = false /\ r_result g = fallbackDecision /\ r_model g = None
             /\ is_Some (r_error g)).
Proof.
  rewrite processTask_eq.
  destruct (gemini E _ _ _) as [e|text].
  { eexists _, _, false. repeat split; eauto. }
  destruct (parseAndValidateResponse text) as [e|parsed] eqn:Ev.
  { eexists _, _, false. repeat split; eauto. }
  destruct (validated_inv _ _ Ev) as (props & -> & [[Ea Ew] | [Ea Er]]).
  - exists (succeeded (selectModel d) (JObj props)), props, true. repeat split; auto.
  - exists (succeeded (selectModel d) (JObj props)), props, false. repeat split; auto.
Qed.

(** ** Cleaning the response *)

Lemma lacks_app (c : ascii) (a b : string) :
  lacks c (a ++ b) <-> lacks c a /\ lacks c b.
Proof. induction a as [|x a IH]; simpl; [tauto | rewrite IH; tauto]. Qed.

Lemma trimStart_brace (a r : string) :
  lacks "{" a ->
  exists a', trimStart (a ++ String "{" r) = a' ++ String "{" r /\ lacks "{" a'.
Proof.
  induction a as [|c a IH]; simpl.
  - intros _. now exists EmptyString.
  - intros [Hc Ha]. destruct (isSpace c).
    + now apply IH.
    + exists (String c a). simpl. auto.
Qed.

Lemma trimEnd_lacks (c : ascii) (b : string) : lacks c b -> lacks c (trimEnd b).
Proof.
  induction b as [|x b IH]; simpl; [tauto |]. intros [Hx Hb].
  destruct (trimEnd b) eqn:E.
  - destruct (isSpace x); simpl; auto.
  - simpl. split; [exact Hx |]. now apply IH.
Qed.

Lemma trimEnd_brace (x b : string) :
  lacks "}" b ->
  exists b', trimEnd (x ++ String "}" b) = x ++ String "}" b' /\ lacks "}" b'.
Proof.
  intros Hb. exists (trimEnd b). split; [| now apply trimEnd_lacks].
  induction x as [|c x IH]; simpl.
  - destruct (trimEnd b); reflexivity.
  - rewrite IH. destruct x; reflexivity.
Qed.

(** A response without backticks that holds an object between braces is
    cleaned to the object. *)
Lemma cleanResponse_span (a mid b : string) :
  lacks "`" (a ++ "{" ++ mid ++ "}" ++ b) -> lacks "{" a -> lacks "}" b ->
  cleanResponse (a ++ "{" ++ mid ++ "}" ++ b) = "{" ++ mid ++ "}".
Proof.
  intros Ht Ha Hb. unfold cleanResponse. rewrite (stripFences_plain _ Ht).
  unfold trim.
  change (a ++ "{" ++ mid ++ "}" ++ b) with (a ++ String "{" (mid ++ String "}" b)).
  destruct (trimStart_brace a (mid ++ String "}" b) Ha) as (a' & -> & Ha').
  replace (a' ++ String "{" (mid ++ String "}" b))
    with ((a' ++ String "{" mid) ++ String "}" b)
    by (rewrite append_assoc; reflexivity).
  destruct (trimEnd_brace (a' ++ String "{" mid) b Hb) as (b' & -> & Hb').
  assert (E : matchBraces ((a' ++ String "{" mid) ++ String "}" b')
              = Some ("{" ++ mid ++ "}")).
  { apply matchBraces_spec. exists a', mid, b'. repeat split; auto.
    rewrite append_assoc. reflexivity. }
  now rewrite E.
Qed.

Lemma parseAndValidateResponse_clean (r1 r2 : string) :
  cleanResponse r1 = cleanResponse r2 ->
  parseAndValidateResponse r1 = parseAndValidateResponse r2.
Proof. intros H. now rewrite !parseAndValidateResponse_eq, H. Qed.

(** X10: Text around the object is ignored: a response without backticks
    that holds an object between its first opening and its last closing
    brace is validated as the object alone is. *)
Theorem prose_around_object_ignored (a mid b : string) :
  lacks "`" (a ++ "{" ++ mid ++ "}" ++ b) -> lacks "{" a -> lacks "}" b ->
  parseAndValidateResponse (a ++ "{" ++ mid ++ "}" ++ b)
  = parseAndValidateResponse ("{" ++ mid ++ "}").
Proof.
  intros Ht Ha Hb. apply parseAndValidateResponse_clean.
  rewrite (cleanResponse_span a mid b Ht Ha Hb).
  apply lacks_app in Ht as [_ Ht]. simpl in Ht. destruct Ht as [H1 Ht].
  apply lacks_app in Ht as [Hm Ht]. simpl in Ht. destruct Ht as [H2 _].
  symmetry.
  change ("{" ++ mid ++ "}") with (EmptyString ++ "{" ++ mid ++ "}" ++ EmptyString).
  apply cleanResponse_span; simpl; auto.
  split; [exact H1 |]. apply lacks_app. simpl. auto.
Qed.

Lemma prose_around_object_ignored_witness :
  parseAndValidateResponse ("Here is the workflow: " ++ declinedReply ++ " Thanks.")
  = parseAndValidateResponse declinedReply.
Proof.
  apply (prose_around_object_ignored "Here is the workflow: "
           (quoted "automatable" ++ ": false, " ++ quoted "reason" ++ ": "
              ++ quoted "needs a person")
           " Thanks.");
    vm_compute; repeat split; discriminate.
Defined.

Lemma trimEnd_space (x : string) (c : ascii) :
  isSpace c = true -> trimEnd (x ++ String c EmptyString) = trimEnd x.
Proof.
  intros Hc. induction x as [|a x IH]; simpl; [now rewrite Hc | now rewrite IH].
Qed.

Lemma trim_space (s : string) (c : ascii) :
  isSpace c = true -> trim (s ++ String c EmptyString) = trim s.
Proof.
  intros Hc. unfold trim. induction s as [|a s IH]; simpl.
  - now rewrite Hc.
  - destruct (isSpace a); [exact IH |].
    change (String a (s ++ String c EmptyString))
      with (String a s ++ String c EmptyString).
    now apply trimEnd_space.
Qed.

Lemma stripFences_fenced_line (reply : string) :
  lacks "`" reply -> stripFences (fenced reply) = reply ++ String LF EmptyString.
Proof.
  intros H. unfold fenced.
  replace (reply ++ String LF backticks)
    with ((reply ++ String LF EmptyString) ++ backticks)
    by (rewrite append_assoc; reflexivity).
  apply stripFences_fenced. apply lacks_app. split; [exact H |].
  simpl. split; [discriminate | exact I].
Qed.

(** X11: A code fence around the reply is ignored: a reply without backticks
    that comes between a [json] fence and a closing fence is validated as
    the reply alone is. *)
Theorem fence_around_reply_ignored (reply : string) :
  lacks "`" reply ->
  parseAndValidateResponse (fenced reply) = parseAndValidateResponse reply.
Proof.
  intros H. apply parseAndValidateResponse_clean. unfold cleanResponse.
  rewrite (stripFences_fenced_line _ H), (stripFences_plain _ H).
  now rewrite trim_space.
Qed.

Lemma fence_around_reply_ignored_witness :
  parseAndValidateResponse (fenced automatableReply)
  = parseAndValidateResponse automatableReply.
Proof.
  apply (fence_around_reply_ignored automatableReply).
  vm_compute. repeat split; discriminate.
Defined.

(** ** No fence is left *)

Lemma startsWith_cons (a b : ascii) (s p : string) :
  startsWith (String a s) (String b p) = if Ascii.eqb a b then startsWith s p else false.
Proof. reflexivity. Qed.

Lemma startsWith_empty (p : string) (b : ascii) :
  startsWith EmptyString (String b p) = false.
Proof. reflexivity. Qed.

Lemma removeFence_cons (fence : string) (nl : bool) (c : ascii) (s : string) :
  removeFence fence 0 nl (String c s) =
  if nl && Ascii.eqb c LF then removeFence fence 0 false s
  else if startsWith (String c s) fence
       then removeFence fence (String.length fence - 1) true s
       else String c (removeFence fence 0 false s).
Proof. reflexivity. Qed.

(** A text that does not start with a backtick, or with two, is copied
    so. *)
Lemma removeFence_head1 (s : string) :
  startsWith s "`" = false -> startsWith (removeFence backticks 0 false s) "`" = false.
Proof.
  destruct s as [|c s]; [reflexivity |].
  rewrite removeFence_cons. cbn [andb]. unfold backticks.
  rewrite !startsWith_cons. destruct (Ascii.eqb c "`") eqn:Ec; [discriminate |].
  intros _. now rewrite startsWith_cons, Ec.
Qed.

Lemma removeFence_head2 (s : string) :
  startsWith s "``" = false -> startsWith (removeFence backticks 0 false s) "``" = false.
Proof.
  destruct s as [|c s]; [reflexivity |].
  rewrite removeFence_cons. cbn [andb]. unfold backticks.
  rewrite !startsWith_cons. destruct (Ascii.eqb c "`") eqn:Ec.
  - intros H.
    assert (H2 : startsWith s "``" = false).
    { destruct s as [|d s]; [reflexivity |]. rewrite startsWith_cons in *.
      destruct (Ascii.eqb d "`"); [discriminate | reflexivity]. }
    rewrite H2, startsWith_cons, Ec. now apply removeFence_head1.
  - intros _. now rewrite startsWith_cons, Ec.
Qed.

Lemma removeFence_no_fence (n : nat) :
  forall (s : string) (nl : bool),
    (String.length s <= n)%nat ->
    includes (removeFence backticks 0 nl s) backticks = false.
Proof.
  induction n as [|n IH]; intros s nl Hn.
  - destruct s; [reflexivity | simpl in Hn; lia].
  - destruct s as [|c s]; [reflexivity |]. simpl in Hn.
    rewrite removeFence_cons.
    destruct (nl && Ascii.eqb c LF); [apply IH; lia |].
    destruct (startsWith (String c s) backticks) eqn:Es.
    + apply startsWith_spec in Es as [r Hr]. unfold backticks in Hr.
      injection Hr as -> ->.
      change (String.length backticks - 1)%nat with (String.length "``").
      change (String "`" (String "`" r)) with ("``" ++ r).
      rewrite removeFence_skip. apply IH. simpl in Hn. lia.
    + cbn [includes]. rewrite (IH s false) by lia. rewrite orb_false_r.
      unfold backticks in *. rewrite startsWith_cons in *.
      destruct (Ascii.eqb c "`"); [| reflexivity].
      now apply removeFence_head2.
Qed.

Lemma Substring_without (p x y : string) :
  Substring x y -> without p y -> without p x.
Proof.
  unfold without. intros (a & b & ->) Hy.
  destruct (includes x p) eqn:Hx; [| reflexivity].
  apply includes_spec in Hx as (a' & b' & ->).
  assert (H : includes (a ++ (a' ++ p ++ b') ++ b) p = true).
  { apply includes_spec. exists (a ++ a'), (b' ++ b).
    now rewrite !append_assoc. }
  congruence.
Qed.

Lemma trimStart_suffix (s : string) : exists a, s = a ++ trimStart s.
Proof.
  induction s as [|c s [a IH]]; [now exists EmptyString |]. simpl.
  destruct (isSpace c); [| now exists EmptyString].
  exists (String c a). simpl. now rewrite <- IH.
Qed.

Lemma trimEnd_prefix (s : string) : exists b, s = trimEnd s ++ b.
Proof.
  induction s as [|c s [b IH]]; [now exists EmptyString |]. cbn [trimEnd].
  destruct (trimEnd s) as [|a t] eqn:E.
  - destruct (isSpace c); [exists (String c s) | exists s]; reflexivity.
  - exists b. rewrite IH at 1. reflexivity.
Qed.

Lemma trim_Substring (s : string) : Substring (trim s) s.
Proof.
  unfold trim. destruct (trimStart_suffix s) as [a Ha].
  destruct (trimEnd_prefix (trimStart s)) as [b Hb].
  exists a, b. now rewrite <- Hb.
Qed.

Lemma matchBraces_Substring (s m : string) : matchBraces s = Some m -> Substring m s.
Proof.
  intros H. apply matchBraces_spec in H as (a & mid & b & -> & _ & _ & ->).
  exists a, b. f_equal. simpl. f_equal. now rewrite append_assoc.
Qed.

(** X12: After the cleaning no code fence is left: neither the response
    without its fences nor the text handed to [JSON.parse] holds three
    backticks in a row, whatever the response. *)
Theorem no_fence_left (response : string) :
  without backticks (stripFences response)
  /\ without backticks (cleanResponse response).
Proof.
  assert (H : without backticks (stripFences response)).
  { unfold without, stripFences. now apply (removeFence_no_fence _ _ _ (le_n _)). }
  split; [exact H |].
  assert (Ht : without backticks (trim (stripFences response)))
    by (apply (Substring_without _ _ _ (trim_Substring _) H)).
  unfold cleanResponse.
  destruct (matchBraces (trim (stripFences response))) as [m|] eqn:E; [| exact Ht].
  apply (Substring_without _ _ _ (matchBraces_Substring _ _ E) Ht).
Qed.

(** ** Whose task it is *)

Lemma deleteRow_found (taskId : Z) (w : World) (t : Task) :
  tasks w !! taskId = Some t ->
  deleteRow taskId w = (inr t, setTasks (delete taskId) 0 w).
Proof. intros H. unfold deleteRow. now rewrite H. Qed.

(** X13: A task is closed to every caller but its owner: reading it, deleting
    it, patching its status and retrying it are answered with 403, no run
    is started, and the world is left as it was. *)
Theorem foreign_task_is_refused (req : TaskRequest) (w : World) (taskId : Z) (t : Task) :
  q_id req = Some taskId ->
  tasks w !! taskId = Some t ->
  q_email req <> Some (t_email t) ->
  getTask req w = (inr (ErrorReply 403 "Unauthorized to view this task" None), w)
  /\ deleteTask req w
     = (inr (ErrorReply 403 "Unauthorized to delete this task" None), w)
  /\ postRetry req w
     = (inr {| response :=
                 {| code := 403;
                    payload := ErrorBody "Unauthorized to retry this task" None |};
               spawned := None |}, w)
  /\ (forall status,
         statusNamed (q_status req) = Some status ->
         patchStatus req w
         = (inr {| response :=
                     {| code := 403;
                        payload := ErrorBody "Unauthorized to update this task" None |};
                   spawned := None |}, w)).
Proof.
  intros Hi Ht He.
  assert (Hd : forall (A : Type) (x y : A),
             (if decide (Some (t_email t) = q_email req) then x else y) = y).
  { intros A x y. rewrite decide_False; [reflexivity | congruence]. }
  repeat split.
  - unfold getTask, numbered, findUnique. unfold_M. now rewrite Hi, Ht, Hd.
  - unfold deleteTask, numbered, findUnique. unfold_M. now rewrite Hi, Ht, Hd.
  - unfold postRetry, numbered, findUnique. unfold_M. now rewrite Hi, Ht, Hd.
  - intros status Hs. unfold patchStatus, numbered, findUnique. unfold_M.
    now rewrite Hs, Hi, Ht, Hd.
Qed.

Lemma foreign_task_is_refused_witness :
  getTask {| q_id := Some 1; q_email := Some "bob@example.org"; q_status := None |}
    oneTask
  = (inr (ErrorReply 403 "Unauthorized to view this task" None), oneTask).
Proof.
  apply (foreign_task_is_refused
           {| q_id := Some 1; q_email := Some "bob@example.org"; q_status := None |}
           oneTask 1 sampleTask); [reflexivity | reflexivity | discriminate].
Defined.

(** X14: A request for an identifier the table does not hold is answered
    with 404 by the four endpoints, and changes nothing. *)
Theorem unknown_task_is_not_found (req : TaskRequest) (w : World) (taskId : Z) :
  q_id req = Some taskId ->
  tasks w !! taskId = None ->
  getTask req w = (inr (ErrorReply 404 "Task not found" None), w)
  /\ deleteTask req w = (inr (ErrorReply 404 "Task not found" None), w)
  /\ postRetry req w
     = (inr {| response := {| code := 404; payload := ErrorBody "Task not found" None |};
               spawned := None |}, w)
  /\ (forall status,
         statusNamed (q_status req) = Some status ->
         patchStatus req w
         = (inr {| response :=
                     {| code := 404; payload := ErrorBody "Task not found" None |};
                   spawned := None |}, w)).
Proof.
  intros Hi Ht. repeat split.
  - unfold getTask, numbered, findUnique. unfold_M. now rewrite Hi, Ht.
  - unfold deleteTask, numbered, findUnique. unfold_M. now rewrite Hi, Ht.
  - unfold postRetry, numbered, findUnique. unfold_M. now rewrite Hi, Ht.
  - intros status Hs. unfold patchStatus, numbered, findUnique. unfold_M.
    now rewrite Hs, Hi, Ht.
Qed.

Lemma unknown_task_is_not_found_witness :
  deleteTask {| q_id := Some 7; q_email := Some "ann@example.org"; q_status := None |}
    oneTask
  = (inr (ErrorReply 404 "Task not found" None), oneTask).
Proof.
  apply (unknown_task_is_not_found
           {| q_id := Some 7; q_email := Some "ann@example.org"; q_status := None |}
           oneTask 7); reflexivity.
Defined.

(** ** Deleting and retrying *)

(** X15: The owner's deletion removes the task and nothing else: the other
    rows and the counter are as before, and the task can no more be read,
    deleted, patched or retried. *)
Theorem deleteTask_removes_the_task (req : TaskRequest) (w : World) (taskId : Z)
    (t : Task) :
  q_id req = Some taskId ->
  tasks w !! taskId = Some t ->
  q_email req = Some (t_email t) ->
  let w' := (deleteTask req w).2 in
  (deleteTask req w).1 = inr (MessageReply "Task deleted successfully")
  /\ tasks w' = delete taskId (tasks w)
  /\ tasks w' !! taskId = None
  /\ (forall i, i <> taskId -> tasks w' !! i = tasks w !! i)
  /\ next_id w' = next_id w
  /\ getTask req w' = (inr (ErrorReply 404 "Task not found" None), w')
  /\ deleteTask req w' = (inr (ErrorReply 404 "Task not found" None), w').
Proof.
  intros Hi Ht He.
  assert (H : deleteTask req w
              = (inr (MessageReply "Task deleted successfully"),
                 setTasks (delete taskId) 0 w)).
  { unfold deleteTask, numbered, findUnique. unfold_M. rewrite Hi, Ht, He.
    rewrite decide_True by reflexivity. now rewrite (deleteRow_found _ _ _ Ht). }
  cbn zeta. rewrite H. cbn [fst snd tasks next_id setTasks].
  assert (Hn : tasks (setTasks (delete taskId) 0 w) !! taskId = None)
    by apply lookup_delete_eq.
  repeat split.
  - apply lookup_delete_eq.
  - intros i Hi'. now apply lookup_delete_ne.
  - lia.
  - unfold getTask, numbered, findUnique. unfold_M. now rewrite Hi, Hn.
  - unfold deleteTask, numbered, findUnique. unfold_M. now rewrite Hi, Hn.
Qed.

Lemma deleteTask_removes_the_task_witness :
  tasks (deleteTask {| q_id := Some 1; q_email := Some "ann@example.org";
                       q_status := None |} oneTask).2 !! 1 = None.
Proof.
  apply (deleteTask_removes_the_task
           {| q_id := Some 1; q_email := Some "ann@example.org"; q_status := None |}
           oneTask 1 sampleTask); reflexivity.
Defined.

Lemma postRetry_owner (req : TaskRequest) (w : World) (taskId : Z) (t : Task) :
  q_id req = Some taskId ->
  tasks w !! taskId = Some t ->
  q_email req = Some (t_email t) ->
  postRetry req w
  = (inr {| response :=
              {| code := 200;
                 payload := MessageBody "Task retry initiated with Gemini AI" |};
            spawned := Some (taskId, t_task t, t_email t) |},
     setTasks <[taskId := setOutcome pending None "retry" t]> 0 w).
Proof.
  intros Hi Ht He. unfold postRetry, numbered, findUnique. unfold_M.
  rewrite Hi, Ht, He. rewrite decide_True by reflexivity.
  now rewrite (update_found _ _ _ _ Ht).
Qed.

(** X16: The owner's retry puts the task back to pending, without result and
    of type retry, whatever it was, and starts a run on its stored text;
    when the run is through the model has been called once more and the
    task, still the owner's and with the same text, is completed or failed
    and has a result. *)
Theorem postRetry_resets_and_reruns (E : Env) (req : TaskRequest) (w : World)
    (taskId : Z) (t : Task) :
  q_id req = Some taskId ->
  tasks w !! taskId = Some t ->
  q_email req = Some (t_email t) ->
  tasks (postRetry req w).2 !! taskId = Some (setOutcome pending None "retry" t)
  /\ (exists h, (postRetry req w).1 = inr h
                /\ code (response h) = 200
                /\ spawned h = Some (taskId, t_task t, t_email t))
  /\ (exists t',
         tasks (served E (postRetry req) w).2 !! taskId = Some t'
         /\ sameIdentity t t'
         /\ terminal (t_status t') = true
         /\ t_result t' <> None)
  /\ geminiCalls (served E (postRetry req) w).2 = S (geminiCalls w)
  /\ (forall i, i <> taskId ->
                tasks (served E (postRetry req) w).2 !! i = tasks w !! i).
Proof.
  intros Hi Ht He. pose proof (postRetry_owner _ _ _ _ Hi Ht He) as H.
  rewrite (served_spawning E _ _ _ _ _ _ _ H eq_refl), H.
  cbn [fst snd tasks setTasks].
  set (w1 := setTasks <[taskId := setOutcome pending None "retry" t]> 0 w).
  assert (H1 : tasks w1 !! taskId = Some (setOutcome pending None "retry" t))
    by apply lookup_insert_eq.
  destruct (run_summary E taskId (t_task t) (t_email t) w1 _ H1)
    as (status & result & type & Hs & _ & Hm & _ & Hg & _).
  cbn zeta in *. repeat split.
  - apply lookup_insert_eq.
  - eexists. repeat split.
  - eexists. rewrite Hm, lookup_insert_eq. split; [reflexivity |].
    repeat split; try exact Hs. discriminate.
  - exact Hg.
  - intros i Hne. rewrite Hm. subst w1. cbn [tasks setTasks].
    now rewrite !lookup_insert_ne by congruence.
Qed.

Lemma postRetry_resets_and_reruns_witness :
  geminiCalls
    (served refusingEnv
       (postRetry {| q_id := Some 1; q_email := Some "ann@example.org";
                     q_status := None |}) oneTask).2 = 1%nat.
Proof.
  apply (postRetry_resets_and_reruns refusingEnv
           {| q_id := Some 1; q_email := Some "ann@example.org"; q_status := None |}
           oneTask 1 sampleTask); reflexivity.
Defined.

(** ** What the creation refuses *)

(** X17: Without the caller's email the creation answers 401; with a task that
    is missing or falsy it answers 400; with a task that is neither a
    string nor falsy the call of [trim] throws and it answers 500.  No row
    is created and no run is started in any of these cases. *)
Theorem postTask_refuses (req : CreateRequest) (w : World) :
  (c_email req = None \/ c_email req = Some EmptyString ->
   postTask req w
   = (inr {| response :=
               {| code := 401;
                  payload := ErrorBody "Unauthorized: User not authenticated" None |};
             spawned := None |}, w))
  /\ (forall c e,
         c_email req = Some (String c e) ->
         truthy (c_task req) = false ->
         postTask req w
         = (inr {| response :=
                     {| code := 400;
                        payload := ErrorBody "Task content is required" None |};
                   spawned := None |}, w))
  /\ (forall c e v,
         c_email req = Some (String c e) ->
         c_task req = Some v ->
         truthy (Some v) = true ->
         (forall s, v <> JStr s) ->
         postTask req w
         = (inr {| response :=
                     {| code := 500;
                        payload := ErrorBody "Failed to create task"
                                     (Some (TypeError "trim")) |};
                   spawned := None |}, w)).
Proof.
  repeat split.
  - intros [H | H]; unfold postTask; unfold_M; now rewrite H.
  - intros c e He Ht. unfold postTask. unfold_M. now rewrite He, Ht.
  - intros c e v He Hv Ht Hs. unfold postTask. unfold_M. rewrite He, Hv, Ht.
    cbn [negb]. destruct v; try reflexivity. now elim (Hs s).
Qed.

Lemma postTask_refuses_witness :
  postTask {| c_email := Some "ann@example.org"; c_task := Some (JNum 5 0);
              c_userId := None |} oneTask
  = (inr {| response :=
              {| code := 500;
                 payload := ErrorBody "Failed to create task"
                              (Some (TypeError "trim")) |};
            spawned := None |}, oneTask)
  /\ (postTask {| c_email := None; c_task := Some (JStr "water the plants");
                  c_userId := None |} oneTask).2 = oneTask.
Proof.
  split.
  - apply (proj2 (proj2 (postTask_refuses
                           {| c_email := Some "ann@example.org";
                              c_task := Some (JNum 5 0); c_userId := None |} oneTask))
             "a"%char "nn@example.org" (JNum 5 0));
      try reflexivity. discriminate.
  - rewrite (proj1 (postTask_refuses
                      {| c_email := None; c_task := Some (JStr "water the plants");
                         c_userId := None |} oneTask)); [reflexivity |].
    left. reflexivity.
Defined.

(** ** Identifiers *)

Lemma fresh_setTasks_insert (w : World) (i : Z) (t : Task) (bump : Z) :
  fresh w -> i < next_id w + bump -> 0 <= bump ->
  fresh (setTasks <[i := t]> bump w).
Proof.
  intros Hw Hi Hb j Hj. cbn [tasks next_id setTasks] in *.
  rewrite lookup_insert_ne by lia. apply Hw. lia.
Qed.

Lemma fresh_known (w : World) (i : Z) (t : Task) :
  fresh w -> tasks w !! i = Some t -> i < next_id w.
Proof.
  intros Hw Ht. destruct (Z_lt_ge_dec i (next_id w)) as [H | H]; [exact H |].
  rewrite (Hw i) in Ht by lia. discriminate.
Qed.

Lemma run_keeps_fresh (E : Env) (taskId : Z) (d email : string) (w : World) :
  fresh w -> fresh (processTaskWithGemini E taskId d email w).2.
Proof.
  intros Hw. destruct (tasks w !! taskId) as [t|] eqn:Ht.
  - destruct (run_summary E taskId d email w t Ht)
      as (status & result & type & _ & _ & Hm & Hn & _).
    cbn zeta in *. intros j Hj. rewrite Hn in Hj. rewrite Hm.
    pose proof (fresh_known _ _ _ Hw Ht).
    rewrite lookup_insert_ne by lia. now apply Hw.
  - now rewrite (processTaskWithGemini_missing _ _ _ _ _ Ht).
Qed.

(** X18: No row has an identifier the counter has yet to give, and every
    operation keeps it so: a creation, a status patch, a retry, a deletion
    and a run, each with the run it starts.  So a creation takes an
    identifier no row has, leaves every row there is as it was, and the
    identifier of a deleted task is not given again. *)
Theorem identifiers_are_not_reused (E : Env) (w : World) :
  fresh w ->
  (forall req, fresh (served E (postTask req) w).2)
  /\ (forall req, fresh (served E (patchStatus req) w).2)
  /\ (forall req, fresh (served E (postRetry req) w).2)
  /\ (forall req, fresh (deleteTask req w).2)
  /\ (forall taskId d email, fresh (processTaskWithGemini E taskId d email w).2)
  /\ (forall req i t,
         tasks w !! i = Some t -> tasks (postTask req w).2 !! i = Some t)
  /\ (forall req, next_id w <= next_id (postTask req w).2)
  /\ (forall req creq taskId t,
         q_id req = Some taskId -> tasks w !! taskId = Some t ->
         tasks (postTask creq (deleteTask req w).2).2 !! taskId
         = tasks (deleteTask req w).2 !! taskId).
Proof.
  intros Hw.
  assert (Hpost : forall req, fresh (postTask req w).2
                              /\ next_id w <= next_id (postTask req w).2
                              /\ forall i t, tasks w !! i = Some t ->
                                             tasks (postTask req w).2 !! i = Some t).
  { intros req.
    destruct (postTask_shape req w) as [h [[H _] | (email & task & H & _)]];
      rewrite H; cbn [snd]; [repeat split; auto; lia |].
    split; [apply fresh_setTasks_insert; auto; lia |].
    cbn [tasks next_id setTasks]. split; [lia |].
    intros i t Ht. pose proof (fresh_known _ _ _ Hw Ht).
    rewrite lookup_insert_ne by lia. exact Ht. }
  assert (Hdel : forall req, fresh (deleteTask req w).2
                             /\ next_id (deleteTask req w).2 = next_id w
                             /\ forall i, tasks w !! i = None ->
                                          tasks (deleteTask req w).2 !! i = None).
  { intros req. unfold deleteTask, numbered, findUnique, deleteRow. unfold_M.
    destruct (q_id req) as [i|]; [| repeat split; auto].
    destruct (tasks w !! i) as [t|] eqn:Ht; [| repeat split; auto].
    case_decide; [| repeat split; auto]. rewrite Ht. cbn [snd].
    repeat split.
    - intros j Hj. cbn [tasks next_id setTasks] in *.
      destruct (decide (i = j)) as [-> | Hne];
        [apply lookup_delete_eq | rewrite lookup_delete_ne by exact Hne; apply Hw; lia].
    - cbn [next_id setTasks]. lia.
    - intros j Hj. cbn [tasks setTasks].
      destruct (decide (i = j)) as [-> | Hne];
        [apply lookup_delete_eq | now rewrite lookup_delete_ne]. }
  repeat split.
  - intros req.
    destruct (postTask_shape req w) as [h [[H Hs] | (email & task & H & Hs)]].
    + rewrite (served_quiet _ _ _ _ _ H Hs). exact Hw.
    + rewrite (served_spawning _ _ _ _ _ _ _ _ H Hs).
      apply run_keeps_fresh. apply fresh_setTasks_insert; auto; lia.
  - intros req. unfold served, patchStatus, numbered, findUnique, update. unfold_M.
    destruct (statusNamed (q_status req)); [| exact Hw].
    destruct (q_id req) as [i|]; [| exact Hw].
    destruct (tasks w !! i) as [t|] eqn:Ht; [| exact Hw].
    case_decide; [| exact Hw]. rewrite Ht. cbn [spawned snd].
    apply fresh_setTasks_insert; auto; [| lia].
    pose proof (fresh_known _ _ _ Hw Ht). lia.
  - intros req.
    destruct (postRetry_shape req w) as [h [[H Hs] | (i & t & Ht & H & Hs)]].
    + rewrite (served_quiet _ _ _ _ _ H Hs). exact Hw.
    + rewrite (served_spawning _ _ _ _ _ _ _ _ H Hs).
      apply run_keeps_fresh. apply fresh_setTasks_insert; auto; [| lia].
      pose proof (fresh_known _ _ _ Hw Ht). lia.
  - intros req. apply Hdel.
  - intros taskId d email. now apply run_keeps_fresh.
  - intros req i t. apply Hpost.
  - intros req. apply Hpost.
  - intros req creq taskId t Hi Ht.
    destruct (Hdel req) as (Hf & Hn & _).
    pose proof (fresh_known _ _ _ Hw Ht) as Hlt.
    destruct (postTask_shape creq (deleteTask req w).2)
      as [h [[H _] | (email & task & H & _)]]; rewrite H; cbn [snd]; [reflexivity |].
    cbn [tasks setTasks]. rewrite Hn. now rewrite lookup_insert_ne by lia.
Qed.

Lemma oneTask_fresh : fresh oneTask.
Proof.
  intros i Hi. cbn [tasks next_id oneTask] in *.
  apply lookup_singleton_ne. lia.
Qed.

Lemma identifiers_are_not_reused_witness :
  fresh oneTask
  /\ fresh (served refusingEnv
              (postTask {| c_email := Some "ann@example.org";
                           c_task := Some (JStr "feed the cat"); c_userId := None |})
              oneTask).2.
Proof.
  split; [exact oneTask_fresh |].
  apply (identifiers_are_not_reused refusingEnv oneTask oneTask_fresh).
Defined.

(** ** The retrying client *)

Lemma repeat_snoc_pred {A : Type} (x : A) (l : list A) (n : nat) :
  (1 <= n)%nat -> ((l ++ [x]) ++ repeat x (n - 1) = l ++ repeat x n)%list.
Proof.
  intros Hn. destruct n as [|n]; [lia |].
  rewrite <- app_assoc. cbn [repeat Nat.sub app]. now rewrite Nat.sub_0_r.
Qed.

(** The loop with [remaining] turns to go, of which there are at least
    one and at most [retries]: it makes [n] calls, the first [n - 1]
    answered with 503 and each followed by one wait, and ends with the
    answer of the last. *)
Lemma attempts_trace (E : Env) (d m : string) (retries : nat) (delay : Z)
    (remaining : nat) :
  (S remaining <= retries)%nat ->
  forall w,
    let r := attempts E d m retries delay (S remaining) w in
    exists n,
      (1 <= n <= S remaining)%nat
      /\ geminiCalls r.2 = (geminiCalls w + n)%nat
      /\ sleeps r.2 = (sleeps w ++ repeat delay (n - 1))%list
      /\ tasks r.2 = tasks w
      /\ requests r.2 = requests w
      /\ (forall k, (k < n - 1)%nat ->
                    exists e, gemini E (geminiCalls w + k) m (promptFor d) = inl e
                              /\ statusOf e = Some 503)
      /\ match r.1 with
         | inr (Some text) =>
             gemini E (geminiCalls w + (n - 1)) m (promptFor d) = inr text
         | inr None => False
         | inl error =>
             exists e, error = FailedToCallGemini e
                       /\ gemini E (geminiCalls w + (n - 1)) m (promptFor d) = inl e
                       /\ (statusOf e = Some 503 -> n = S remaining)
         end.
Proof.
  induction remaining as [|remaining IH]; intros Hr w r; subst r;
    rewrite attempts_step;
    destruct (gemini E (geminiCalls w) m (promptFor d)) as [e|text] eqn:Hg.
  - rewrite decide_False by lia. exists 1%nat. cbn [fst snd geminiCalls sleeps tasks
      requests afterCall Nat.sub repeat]. rewrite Nat.add_0_r, app_nil_r.
    repeat split; try lia. eexists; repeat split; eauto.
  - exists 1%nat. cbn [fst snd geminiCalls sleeps tasks requests afterCall
                         Nat.sub repeat]. rewrite Nat.add_0_r, app_nil_r.
    repeat split; try lia. exact Hg.
  - case_decide as Hd.
    + destruct Hd as [Hs _].
      destruct (IH ltac:(lia) (afterSleep delay (afterCall w)))
        as (n & Hn & Hc & Hsl & Ht & Hq & Hk & Hres).
      cbn zeta in *. exists (S n).
      cbn [geminiCalls sleeps tasks requests afterCall afterSleep] in *.
      rewrite Hc, Hsl, Ht, Hq.
      repeat split; try lia.
      * cbn [Nat.sub]. rewrite Nat.sub_0_r. now apply repeat_snoc_pred.
      * intros k Hlt. destruct k as [|k].
        -- rewrite Nat.add_0_r. eauto.
        -- destruct (Hk k ltac:(lia)) as (e' & He' & Hs').
           exists e'. split; [| exact Hs'].
           now replace (geminiCalls w + S k)%nat with (S (geminiCalls w) + k)%nat by lia.
      * replace (geminiCalls w + (S n - 1))%nat
          with (S (geminiCalls w) + (n - 1))%nat by lia.
        destruct (attempts E d m retries delay (S remaining)
                    (afterSleep delay (afterCall w))).1 as [err | [text|]];
          [| exact Hres | exact Hres].
        destruct Hres as (e' & -> & He' & Hlast).
        exists e'. repeat split; auto; intros H503; now rewrite (Hlast H503).
    + exists 1%nat. cbn [fst snd geminiCalls sleeps tasks requests afterCall
                           Nat.sub repeat]. rewrite Nat.add_0_r, app_nil_r.
      repeat split; try lia. exists e. repeat split; auto.
      intros H503. elim Hd. split; [exact H503 | lia].
  - exists 1%nat. cbn [fst snd geminiCalls sleeps tasks requests afterCall
                         Nat.sub repeat]. rewrite Nat.add_0_r, app_nil_r.
    repeat split; try lia. exact Hg.
Qed.

(** X19: The retrying declaration of [callGemini], for any number of tries
    and any wait: asked for no try it calls nothing and returns
    [undefined]; asked for at least one it never returns [undefined],
    makes at least one call and at most [retries], waits [delay] once
    between two calls and never after the last, touches no task and sends
    no request; every call but the last was answered with status 503, the
    text returned is the answer of the last call, and an error thrown
    wraps the error of the last call, which has status 503 only when the
    tries are used up. *)
Theorem retrying_client_is_bounded (E : Env) (d m : string) (retries : nat)
    (delay : Z) (w : World) :
  (retries = 0%nat -> callGemini_first E d m retries delay w = (inr None, w))
  /\ ((1 <= retries)%nat ->
      let r := callGemini_first E d m retries delay w in
      exists n,
        (1 <= n <= retries)%nat
        /\ geminiCalls r.2 = (geminiCalls w + n)%nat
        /\ sleeps r.2 = (sleeps w ++ repeat delay (n - 1))%list
        /\ tasks r.2 = tasks w
        /\ requests r.2 = requests w
        /\ (forall k, (k < n - 1)%nat ->
                      exists e, gemini E (geminiCalls w + k) m (promptFor d) = inl e
                                /\ statusOf e = Some 503)
        /\ match r.1 with
           | inr (Some text) =>
               gemini E (geminiCalls w + (n - 1)) m (promptFor d) = inr text
           | inr None => False
           | inl error =>
               exists e, error = FailedToCallGemini e
                         /\ gemini E (geminiCalls w + (n - 1)) m (promptFor d) = inl e
                         /\ (statusOf e = Some 503 -> n = retries)
           end).
Proof.
  split.
  - intros ->. reflexivity.
  - intros Hr. unfold callGemini_first. destruct retries as [|retries]; [lia |].
    apply attempts_trace. lia.
Qed.

Lemma retrying_client_is_bounded_witness :
  exists n,
    (1 <= n <= 5)%nat
    /\ sleeps (callGemini_first
                 {| gemini := overloadedTwice; N8N_API_KEY := None; axios := None |}
                 "water the plants" "gemini-2.5-flash" 5 1000 emptyWorld).2
       = repeat 1000 (n - 1).
Proof.
  destruct (proj2 (retrying_client_is_bounded
                     {| gemini := overloadedTwice; N8N_API_KEY := None; axios := None |}
                     "water the plants" "gemini-2.5-flash" 5 1000 emptyWorld))
    as (n & Hn & _ & Hs & _); [lia |].
  exists n. split; [exact Hn | exact Hs].
Defined.

(** ** The connection test *)

(** X20: [testConnection] never throws.  Without a key, or with an empty one,
    it reports the failure and calls nothing; with a key it makes one call
    to the flash model, and reports success exactly when the call
    answers, with the error of the call otherwise.  It touches no task
    and sends no request. *)
Theorem testConnection_reports (E : Env) (key : option string) (w : World) :
  let r := testConnection E key w in
  let prompt := "Hello, respond with " ++ quoted "OK" in
  tasks r.2 = tasks w /\ requests r.2 = requests w /\ sleeps r.2 = sleeps w
  /\ exists status,
      r.1 = inr status
      /\ (cs_gemini status = true <->
          (exists c k, key = Some (String c k))
          /\ exists text, gemini E (geminiCalls w) "gemini-2.5-flash" prompt = inr text)
      /\ (cs_gemini status = true ->
          cs_model status = Some "gemini-2.5-flash" /\ cs_error status = None)
      /\ (cs_gemini status = false -> cs_model status = None /\ cs_error status <> None)
      /\ (forall error,
             gemini E (geminiCalls w) "gemini-2.5-flash" prompt = inl error ->
             (exists c k, key = Some (String c k)) ->
             cs_error status = Some error)
      /\ geminiCalls r.2
         = match key with
           | Some (String _ _) => S (geminiCalls w)
           | _ => geminiCalls w
           end.
Proof.
  cbn zeta. unfold testConnection, generateText. unfold_M.
  destruct key as [[|c k]|].
  1, 3: do 3 (split; [reflexivity |]); eexists; split; [reflexivity |];
    cbn [cs_gemini cs_model cs_error fst snd];
    (split; [split; [discriminate | intros [(c & k & H) _]; discriminate H] |]);
    (split; [discriminate |]);
    (split; [intros _; split; [reflexivity | discriminate] |]);
    (split; [intros e _ (c & k & H); discriminate H | reflexivity]).
  destruct (gemini E (geminiCalls w) "gemini-2.5-flash"
              ("Hello, respond with " ++ quoted "OK")) as [e|text] eqn:Hg;
    cbn [fst snd tasks requests sleeps geminiCalls afterCall];
    do 3 (split; [reflexivity |]); eexists; (split; [reflexivity |]);
    cbn [cs_gemini cs_model cs_error].
  - split; [split; [discriminate | intros [_ (text & H)]; discriminate H] |].
    split; [discriminate |].
    split; [intros _; split; [reflexivity | discriminate] |].
    split; [intros e' He' _; congruence | reflexivity].
  - split; [split; [intros _; split; eauto | reflexivity] |].
    split; [intros _; split; reflexivity |].
    split; [discriminate |].
    split; [intros e' He' _; discriminate He' | reflexivity].
Qed.

(** ** Tiers and the text around a task *)

Lemma includes_extend (a t b p : string) :
  includes t p = true -> includes (a ++ t ++ b) p = true.
Proof.
  rewrite !includes_spec. intros (x & y & ->).
  exists (a ++ x), (y ++ b). now rewrite !append_assoc.
Qed.

Lemma score_extend (patterns : list string) (a t b : string) :
  (score patterns t <= score patterns (a ++ t ++ b))%nat.
Proof.
  unfold score. induction patterns as [|p ps IH]; cbn [List.filter]; [lia |].
  destruct (includes t p) eqn:Hp.
  - rewrite (includes_extend a t b p Hp). cbn [length]. lia.
  - destruct (includes (a ++ t ++ b) p); cbn [length]; lia.
Qed.

Lemma analyzeComplexity_complex (t : string) :
  analyzeComplexity t = "complex"
  <-> (2 <= score complexPatterns (toLowerCase t))%nat.
Proof.
  unfold analyzeComplexity. cbn zeta.
  destruct (Nat.leb_spec 2 (score complexPatterns (toLowerCase t))) as [H | H].
  - tauto.
  - split; [| lia].
    destruct ((1 <=? score easyPatterns (toLowerCase t))%nat
              && (score complexPatterns (toLowerCase t) =? 0)%nat); discriminate.
Qed.

Lemma analyzeComplexity_easy (t : string) :
  analyzeComplexity t = "easy" -> score complexPatterns (toLowerCase t) = 0%nat.
Proof.
  unfold analyzeComplexity. cbn zeta.
  destruct (2 <=? score complexPatterns (toLowerCase t))%nat; [discriminate |].
  destruct (Nat.eqb_spec (score complexPatterns (toLowerCase t)) 0) as [H | H];
    [auto |].
  rewrite andb_false_r. discriminate.
Qed.

(** X21: Text put before and after a task never lowers its tier: a complex
    task stays complex and keeps the pro model, and a task that mentions
    one of the complex keywords, in any case of letters, is not easy,
    whatever surrounds it.  So no task with the word email in it is easy,
    as that word holds the keyword ai. *)
Theorem complexity_under_extension (a t b : string) :
  (analyzeComplexity t = "complex" ->
   analyzeComplexity (a ++ t ++ b) = "complex"
   /\ selectModel (a ++ t ++ b) = "gemini-2.5-pro")
  /\ (forall k, In k complexPatterns -> Substring k (toLowerCase t) ->
                analyzeComplexity (a ++ t ++ b) <> "easy")
  /\ (Substring "email" (toLowerCase t) -> analyzeComplexity (a ++ t ++ b) <> "easy").
Proof.
  assert (Hext : (score complexPatterns (toLowerCase t)
                  <= score complexPatterns (toLowerCase (a ++ t ++ b)))%nat).
  { rewrite !toLowerCase_app. apply score_extend. }
  assert (Hkey : forall k, In k complexPatterns -> Substring k (toLowerCase t) ->
                           analyzeComplexity (a ++ t ++ b) <> "easy").
  { intros k Hin Hk Heasy. apply analyzeComplexity_easy in Heasy.
    apply includes_spec in Hk. pose proof (score_hit _ _ _ Hin Hk). lia. }
  repeat split.
  - apply analyzeComplexity_complex. apply analyzeComplexity_complex in H. lia.
  - unfold selectModel. cbn zeta.
    replace (analyzeComplexity (a ++ t ++ b)) with "complex"; [reflexivity |].
    symmetry. apply analyzeComplexity_complex. apply analyzeComplexity_complex in H. lia.
  - exact Hkey.
  - intros (x & y & Ht). apply (Hkey "ai").
    + cbn. tauto.
    + exists (x ++ "em"), ("l" ++ y). rewrite Ht, !append_assoc. reflexivity.
Qed.

Lemma complexity_under_extension_witness :
  analyzeComplexity ("Please " ++ "Analyze and compare the reports" ++ " by noon")
  = "complex".
Proof.
  apply (proj1 (complexity_under_extension
                  "Please " "Analyze and compare the reports" " by noon")).
  vm_compute. reflexivity.
Defined.

(** ** Patching twice, creating and deleting *)

(** X22: Of two status patches of one task by one caller, the later with a
    valid status, the later one wins: answer and tasks are those of the
    later patch made alone.  So a patch made twice is a patch made once. *)
Theorem last_status_patch_wins (first second : TaskRequest) (w : World)
    (status : Status) :
  q_id first = q_id second ->
  q_email first = q_email second ->
  statusNamed (q_status second) = Some status ->
  (patchStatus second (patchStatus first w).2).1 = (patchStatus second w).1
  /\ tasks (patchStatus second (patchStatus first w).2).2
     = tasks (patchStatus second w).2.
Proof.
  intros Hi He Hs. unfold patchStatus, numbered, findUnique, update. unfold_M.
  rewrite Hs, Hi, He.
  destruct (statusNamed (q_status first)) as [s1|]; [| split; reflexivity].
  destruct (q_id second) as [i|]; [| split; reflexivity].
  destruct (tasks w !! i) as [t|] eqn:Ht; [| cbn [fst snd]; rewrite Ht; split; reflexivity].
  case_decide as Ho; [| cbn [fst snd]; rewrite Ht, decide_False by exact Ho;
                        split; reflexivity].
  rewrite Ht. cbn [fst snd tasks setTasks].
  rewrite lookup_insert_eq. cbn [t_email setStatus].
  rewrite decide_True by exact Ho. cbn [tasks setTasks]. rewrite lookup_insert_eq.
  cbn [fst snd tasks setTasks]. rewrite insert_insert_eq. split; reflexivity.
Qed.

Lemma last_status_patch_wins_witness :
  tasks (patchStatus {| q_id := Some 1; q_email := Some (t_email sampleTask);
                        q_status := Some (JStr "failed") |}
           (patchStatus {| q_id := Some 1; q_email := Some (t_email sampleTask);
                           q_status := Some (JStr "completed") |} oneTask).2).2
  = tasks (patchStatus {| q_id := Some 1; q_email := Some (t_email sampleTask);
                          q_status := Some (JStr "failed") |} oneTask).2.
Proof.
  apply (last_status_patch_wins
           {| q_id := Some 1; q_email := Some (t_email sampleTask);
              q_status := Some (JStr "completed") |}
           {| q_id := Some 1; q_email := Some (t_email sampleTask);
              q_status := Some (JStr "failed") |} oneTask failed);
    reflexivity.
Defined.


